(** * GaryCooper: the coop controller's control loop

    A shallow embedding of the orchestration sketch (settings load/save,
    [setup], [loop], [reportError], [sendErrors]) and of [GaryCooper.h].

    The sketch is a single-threaded program over global variables that
    talks to a number of collaborator objects (GPS parser, door, light, beep,
    telemetry, save controller, sun calculator).  The globals of the sketch
    are fields of [State]; the program is written in a small state monad; the
    collaborators, whose code is not part of the sketch, are an interface
    ([Collaborators]): every call made on one of them is recorded, in order,
    in the [trace] and applied to their joint state.  What the sketch writes
    on pins and serial ports is recorded in the [trace] as well. *)

From Stdlib Require Import ZArith List Bool String Lia DecimalString.
From Stdlib.Strings Require Import Byte.
Import ListNotations.
Local Open Scope string_scope.
Local Open Scope list_scope.
Local Open Scope Z_scope.

(** ** Constants and build flags *)

(** GaryCooper.h, line 13. *)
Definition GARYCOOPER_DATA_VERSION : Z := 1.

(** Modelled from the spec: MILLIS_PER_SECOND is declared in a header that is
    not part of the sketch; the spec gives the periods built from it as
    2000 ms, 5000 ms and 60000 ms. *)
Definition MILLIS_PER_SECOND : Z := 1000.

Definition TIME_CHECK_UPDATE_NO_GPS_LOCK : Z := 5 * MILLIS_PER_SECOND.
Definition TIME_CHECK_UPDATE_GPS_LOCK : Z := 60 * MILLIS_PER_SECOND.
Definition TELEMETRY_UPDATE : Z := 2 * MILLIS_PER_SECOND.

(** The preprocessor symbols tested with [#ifdef] in the sketch.  None of them
    is defined in the sketch or in GaryCooper.h (DEBUG_RAW_GPS is there,
    commented out), so each is a parameter of the build. *)
Record BuildConfig := {
  BEEP_ON_ERROR : bool;
  DEBUG_SETTINGS : bool;
  DEBUG_RAW_GPS : bool
}.

(** The values of the enumerators of [telemetryErrorE] that [reportError]
    names.  The enumeration is declared in TelemetryTags.h, which is not part
    of the sketch, so the values are parameters. *)
Record TelemetryTags := {
  telemetry_error_GPS_no_data : Z;
  telemetry_error_GPS_bad_data : Z;
  telemetry_error_GPS_not_locked : Z;
  telemetry_error_suncalc_invalid_time : Z;
  telemetry_error_no_door_motor : Z;
  telemetry_error_door_motor_unknown_state : Z;
  telemetry_error_door_motor_unknown_not_responding : Z
}.

(** The error kinds, by name. *)
Inductive ErrorKind :=
| GPS_no_data
| GPS_bad_data
| GPS_not_locked
| suncalc_invalid_time
| no_door_motor
| door_motor_unknown_state
| door_motor_unknown_not_responding.

Definition tagOf (T : TelemetryTags) (k : ErrorKind) : Z :=
  match k with
  | GPS_no_data => telemetry_error_GPS_no_data T
  | GPS_bad_data => telemetry_error_GPS_bad_data T
  | GPS_not_locked => telemetry_error_GPS_not_locked T
  | suncalc_invalid_time => telemetry_error_suncalc_invalid_time T
  | no_door_motor => telemetry_error_no_door_motor T
  | door_motor_unknown_state => telemetry_error_door_motor_unknown_state T
  | door_motor_unknown_not_responding =>
      telemetry_error_door_motor_unknown_not_responding T
  end.

Definition ErrorKind_eqb (a b : ErrorKind) : bool :=
  match a, b with
  | GPS_no_data, GPS_no_data
  | GPS_bad_data, GPS_bad_data
  | GPS_not_locked, GPS_not_locked
  | suncalc_invalid_time, suncalc_invalid_time
  | no_door_motor, no_door_motor
  | door_motor_unknown_state, door_motor_unknown_state
  | door_motor_unknown_not_responding, door_motor_unknown_not_responding => true
  | _, _ => false
  end.

(** The data model of the error register: every kind is one bit of the
    16-bit word, and no two kinds share a bit. *)
Definition bitOfTag (v : Z) : option Z :=
  find (fun b => v =? 2 ^ b) [0;1;2;3;4;5;6;7;8;9;10;11;12;13;14;15].

Definition OneBitPerKind (T : TelemetryTags) : Prop :=
  (forall k, bitOfTag (tagOf T k) <> None) /\
  (forall k k', tagOf T k = tagOf T k' -> k = k').

(** ** Calls on the collaborators *)

Inductive TimerId := timeCheckTimer | telemetryUpdateTimer.
Inductive BeepFreq := BEEP_FREQ_INFO | BEEP_FREQ_ERROR.
Inductive telemetryTagE := telemetry_tag_version | telemetry_tag_error_flags.

(** The three overloads of [sendTerm] the sketch uses. *)
Inductive Term :=
| term_tag (t : telemetryTagE)
| TELEMETRY_VERSION_01
| term_word (w : Z).

Inductive Call :=
(* g_saveController *)
| save_updateHeader (version : Z)
| save_rewind
(* g_doorController, g_lightController *)
| door_setup
| light_setup
| door_saveSettings (_defaults : bool)
| light_saveSettings (_defaults : bool)
| door_loadSettings
| light_loadSettings
| door_tick
| door_checkTime
| light_checkTime
| door_sendTelemetry
| light_sendTelemetry
(* g_GPSParser *)
| gps_parse (data : list byte)
| gps_clear
(* g_sunCalc *)
| sunCalc_processGPSData
| sunCalc_sendTelemetry
(* g_telemetryComm, g_telemetry *)
| comm_open
| comm_tick
| telemetry_setInterfaces
| telemetry_tick
| transmissionStart
| sendTerm (t : Term)
| transmissionEnd
(* g_beepController *)
| beep_setup
| beep_tick
| beep (freq : BeepFreq) (onMs offMs count : Z)
(* the timers *)
| timer_start (t : TimerId) (ms : Z)
(* pins and serial ports *)
| pinMode_heartbeat_output
| digitalWrite_heartbeat (v : bool)
| debug_begin
| gps_begin
| debug_print (s : string)
| debug_println (s : string).

(** What the sketch needs of its collaborators: a joint state, the effect of
    each call on it, and the three values the sketch reads back.  ([Call]
    also lists the writes on pins and ports and the timer restarts; those are
    only recorded, see [output].) *)
Class Collaborators := {
  Ext : Type;
  ext_call : Call -> Ext -> Ext;
  (** [g_saveController.getDataVersion()] *)
  getDataVersion : Ext -> Z;
  (** [g_GPSParser.getGPSData().m_GPSLocked] *)
  m_GPSLocked : Ext -> bool;
  (** the result of [g_sunCalc.processGPSData(g_GPSParser.getGPSData())] *)
  processGPSData : Ext -> bool
}.

(** ** CMilliTimer *)

Module CMilliTimer.

Inductive state := running | expired.

(** Modelled from the spec: the timer class is declared in MilliTimer.h,
    which is not part of the sketch.  "Timer: {duration, deadline, state};
    start sets deadline = now + duration and state = running; polling
    compares now >= deadline to transition to expired; never
    auto-restarts". *)
Record t := mk { duration : Z; deadline : Z; st : state }.

Definition start (now : Z) (d : Z) (_ : t) : t :=
  {| duration := d; deadline := now + d; st := running |}.

Definition poll (now : Z) (x : t) : t :=
  match st x with
  | running => if deadline x <=? now
               then {| duration := duration x; deadline := deadline x; st := expired |}
               else x
  | expired => x
  end.

Definition getState (now : Z) (x : t) : state := st (poll now x).

Definition is_expired (s : state) : bool :=
  match s with expired => true | running => false end.

End CMilliTimer.

(** ** State of the sketch *)

Section Sketch.

Context {W : Collaborators}.
Variable cfg : BuildConfig.
Variable tags : TelemetryTags.

Record State := mkState {
  s_gpsDataStreamActive : bool;
  settingsLoaded : bool;
  g_timeCheckTimer : CMilliTimer.t;
  g_telemetryUpdateTimer : CMilliTimer.t;
  g_heartbeat : bool;
  s_errorFlags : Z;                (* uint16_t *)
  gps_serial : list byte;          (* receive buffer of GPS_SERIAL *)
  ext : Ext;                       (* the collaborators *)
  trace : list Call                (* calls made so far, oldest first *)
}.

(** A state monad over [State]. *)
Definition M (A : Type) : Type := State -> A * State.

Definition ret {A} (a : A) : M A := fun s => (a, s).
Definition bind {A B} (c : M A) (k : A -> M B) : M B :=
  fun s => let (a, s') := c s in k a s'.
Definition exec {A} (c : M A) (s : State) : State := snd (c s).
Definition gets {A} (f : State -> A) : M A := fun s => (f s, s).
Definition modify (f : State -> State) : M unit := fun s => (tt, f s).
Definition when (b : bool) (c : M unit) : M unit := if b then c else ret tt.

Notation "x <- c ;; k" := (bind c (fun x => k))
  (at level 61, c at next level, right associativity).
Notation "c ;; k" := (bind c (fun _ => k))
  (at level 61, right associativity).

Definition set_gpsDataStreamActive (b : bool) : M unit :=
  modify (fun s => mkState b (settingsLoaded s) (g_timeCheckTimer s)
    (g_telemetryUpdateTimer s) (g_heartbeat s) (s_errorFlags s) (gps_serial s)
    (ext s) (trace s)).

Definition set_settingsLoaded (b : bool) : M unit :=
  modify (fun s => mkState (s_gpsDataStreamActive s) b (g_timeCheckTimer s)
    (g_telemetryUpdateTimer s) (g_heartbeat s) (s_errorFlags s) (gps_serial s)
    (ext s) (trace s)).

Definition set_timer (id : TimerId) (x : CMilliTimer.t) : M unit :=
  modify (fun s =>
    match id with
    | timeCheckTimer =>
        mkState (s_gpsDataStreamActive s) (settingsLoaded s) x
          (g_telemetryUpdateTimer s) (g_heartbeat s) (s_errorFlags s)
          (gps_serial s) (ext s) (trace s)
    | telemetryUpdateTimer =>
        mkState (s_gpsDataStreamActive s) (settingsLoaded s)
          (g_timeCheckTimer s) x (g_heartbeat s) (s_errorFlags s)
          (gps_serial s) (ext s) (trace s)
    end).

Definition set_heartbeat (b : bool) : M unit :=
  modify (fun s => mkState (s_gpsDataStreamActive s) (settingsLoaded s)
    (g_timeCheckTimer s) (g_telemetryUpdateTimer s) b (s_errorFlags s)
    (gps_serial s) (ext s) (trace s)).

Definition set_errorFlags (w : Z) : M unit :=
  modify (fun s => mkState (s_gpsDataStreamActive s) (settingsLoaded s)
    (g_timeCheckTimer s) (g_telemetryUpdateTimer s) (g_heartbeat s) w
    (gps_serial s) (ext s) (trace s)).

Definition set_gps_serial (l : list byte) : M unit :=
  modify (fun s => mkState (s_gpsDataStreamActive s) (settingsLoaded s)
    (g_timeCheckTimer s) (g_telemetryUpdateTimer s) (g_heartbeat s)
    (s_errorFlags s) l (ext s) (trace s)).

(** A call on a collaborator: it acts on the collaborators' state and is
    appended to the trace. *)
Definition call (c : Call) : M unit :=
  modify (fun s => mkState (s_gpsDataStreamActive s) (settingsLoaded s)
    (g_timeCheckTimer s) (g_telemetryUpdateTimer s) (g_heartbeat s)
    (s_errorFlags s) (gps_serial s) (ext_call c (ext s)) (trace s ++ [c])).

(** A write on a pin or on a serial port, or the restart of a timer: it is
    appended to the trace and leaves the collaborators as they are. *)
Definition output (c : Call) : M unit :=
  modify (fun s => mkState (s_gpsDataStreamActive s) (settingsLoaded s)
    (g_timeCheckTimer s) (g_telemetryUpdateTimer s) (g_heartbeat s)
    (s_errorFlags s) (gps_serial s) (ext s) (trace s ++ [c])).

Definition timer_of (id : TimerId) (s : State) : CMilliTimer.t :=
  match id with
  | timeCheckTimer => g_timeCheckTimer s
  | telemetryUpdateTimer => g_telemetryUpdateTimer s
  end.

(** [timer.getState()], polled at clock reading [now]. *)
Definition timer_getState (id : TimerId) (now : Z) : M CMilliTimer.state :=
  x <- gets (timer_of id) ;;
  set_timer id (CMilliTimer.poll now x) ;;
  ret (CMilliTimer.getState now x).

(** [timer.start(ms)], at clock reading [now]. *)
Definition timer_start_at (id : TimerId) (now ms : Z) : M unit :=
  x <- gets (timer_of id) ;;
  set_timer id (CMilliTimer.start now ms x) ;;
  output (timer_start id ms).

(** [GPS_SERIAL.available()] and [GPS_SERIAL.readBytes(buf, len)]: the bytes
    are taken from the front of the receive buffer. *)
Definition gps_available : M Z :=
  gets (fun s => Z.of_nat (List.length (gps_serial s))).

Definition gps_readBytes (len : Z) : M (list byte) :=
  buf <- gets gps_serial ;;
  set_gps_serial (skipn (Z.to_nat len) buf) ;;
  ret (firstn (Z.to_nat len) buf).

(** ** Settings (lines 62-126) *)

Definition saveSettings (_defaults : bool) : M unit :=
  when (DEBUG_SETTINGS cfg) (output (debug_print "Save settings... ")) ;;
  (* Make sure the header is correct *)
  call (save_updateHeader GARYCOOPER_DATA_VERSION) ;;
  (* Rewind so we write the settings in the correct place *)
  call save_rewind ;;
  (* Save everything *)
  call (door_saveSettings _defaults) ;;
  call (light_saveSettings _defaults) ;;
  when (DEBUG_SETTINGS cfg) (output (debug_println "complete.")).

Definition string_of_Z (z : Z) : string := NilZero.string_of_int (Z.to_int z).

Definition loadSettings : M unit :=
  when (DEBUG_SETTINGS cfg)
    (output (debug_print "Load settings checking header version: ")) ;;
  headerVersion <- gets (fun s => getDataVersion (ext s)) ;;
  when (DEBUG_SETTINGS cfg)
    (output (debug_print (string_of_Z headerVersion)) ;;
     output (debug_print " - ")) ;;
  (if negb (headerVersion =? GARYCOOPER_DATA_VERSION) then
     when (DEBUG_SETTINGS cfg)
       (output (debug_println "INCORRECT.") ;;
        output (debug_println "Saving default settings.")) ;;
     saveSettings true
   else
     when (DEBUG_SETTINGS cfg) (output (debug_println "CORRECT."))) ;;
  when (DEBUG_SETTINGS cfg) (output (debug_println "Loading settings... ")) ;;
  (* Make sure we start at the beginning *)
  call save_rewind ;;
  call door_loadSettings ;;
  call light_loadSettings ;;
  when (DEBUG_SETTINGS cfg) (output (debug_println "Load settings complete.")).

(** ** setup (lines 128-160), at clock reading [now] *)

Definition setup (now : Z) : M unit :=
  output pinMode_heartbeat_output ;;
  output debug_begin ;;
  output gps_begin ;;
  call comm_open ;;
  call telemetry_setInterfaces ;;
  call door_setup ;;
  call light_setup ;;
  call beep_setup ;;
  call (beep BEEP_FREQ_INFO 50 50 2) ;;
  timer_start_at telemetryUpdateTimer now TELEMETRY_UPDATE ;;
  timer_start_at timeCheckTimer now TIME_CHECK_UPDATE_NO_GPS_LOCK.

(** ** The error register (lines 279-372) *)

Definition uint16 (z : Z) : Z := z mod 65536.

(** The [switch] of lines 305-346: the text printed for the tag and the
    number of beeps.  The text starts as the decimal form of the tag and
    [beepCount] as 0; a [case] label overwrites both. *)
Definition describeError (_errorTag : Z) : string * Z :=
  if _errorTag =? telemetry_error_GPS_no_data tags then
    ("telemetry_error_GPS_no_data", 1)
  else if _errorTag =? telemetry_error_GPS_bad_data tags then
    ("telemetry_error_GPS_bad_data", 2)
  else if _errorTag =? telemetry_error_GPS_not_locked tags then
    ("telemetry_error_GPS_not_locked", 3)
  else if _errorTag =? telemetry_error_suncalc_invalid_time tags then
    ("telemetry_error_suncalc_invalid_time", 4)
  else if _errorTag =? telemetry_error_no_door_motor tags then
    ("telemetry_error_no_door_motor", 5)
  else if _errorTag =? telemetry_error_door_motor_unknown_state tags then
    ("telemetry_error_door_motor_unknown_state", 6)
  else if _errorTag =? telemetry_error_door_motor_unknown_not_responding tags then
    ("telemetry_error_door_motor_unknown_not_responding", 7)
  else
    (string_of_Z _errorTag, 0).

(** Lines 304-363: report the transition on the console, and beep. *)
Definition announceError (_errorTag : Z) (_set : bool) : M unit :=
  let (errorString, beepCount) := describeError _errorTag in
  output (debug_println "") ;;
  (if _set then
     output (debug_print "*** SET ERROR: ") ;;
     when (BEEP_ON_ERROR cfg) (call (beep BEEP_FREQ_ERROR 100 50 beepCount))
   else
     output (debug_print "*** CLEAR ERROR: ")) ;;
  output (debug_println errorString) ;;
  output (debug_println "").

Definition reportError (_errorTag : Z) (_set : bool) : M unit :=
  flags <- gets s_errorFlags ;;
  if _set then
    (* Don't keep re-setting them *)
    if negb (Z.land flags _errorTag =? 0) then ret tt
    else
      (* Or it in *)
      set_errorFlags (uint16 (Z.lor flags _errorTag)) ;;
      announceError _errorTag _set
  else
    (* Don't keep re-clearing them *)
    if Z.land flags _errorTag =? 0 then ret tt
    else
      (* Mask it out *)
      set_errorFlags (uint16 (Z.land flags (Z.lnot _errorTag))) ;;
      announceError _errorTag _set.

Definition sendErrors : M unit :=
  call transmissionStart ;;
  call (sendTerm (term_tag telemetry_tag_error_flags)) ;;
  flags <- gets s_errorFlags ;;
  call (sendTerm (term_word flags)) ;;
  call transmissionEnd.

(** ** loop (lines 162-266), at clock reading [now] *)

(** The text of a NUL-terminated buffer. *)
Fixpoint c_string (l : list byte) : string :=
  match l with
  | [] => EmptyString
  | b :: l' => if Byte.eqb b x00 then EmptyString
               else String (Ascii.ascii_of_byte b) (c_string l')
  end.

(** Lines 171-197.  [fuel] bounds the number of passes of the [while]; a pass
    that finds bytes takes at least one, so the length of the receive buffer
    is enough ([drainGPS_spec]). *)
Fixpoint drainGPS (fuel : nat) : M unit :=
  match fuel with
  | O => ret tt
  | S fuel' =>
      avail <- gps_available ;;
      if avail =? 0 then ret tt
      else
        (* Get the data from the serial port *)
        GPSDataLen <- gps_available ;;
        GPSData <- gps_readBytes
                     (if 256 - 1 <? GPSDataLen then 256 - 1 else GPSDataLen) ;;
        when (negb (Z.of_nat (List.length GPSData) =? 0))
          (when (DEBUG_RAW_GPS cfg) (output (debug_print (c_string GPSData))) ;;
           (* Parse the GPS data *)
           call (gps_parse GPSData) ;;
           (* Note that we have received some data *)
           set_gpsDataStreamActive true) ;;
        drainGPS fuel'
  end.

(** Lines 164-207: the settings latch, the input drain and the ticks. *)
Definition loopIntake : M unit :=
  (* Load settings? *)
  loaded <- gets settingsLoaded ;;
  when (negb loaded) (loadSettings ;; set_settingsLoaded true) ;;
  (* Process all available GPS data *)
  fuel <- gets (fun s => List.length (gps_serial s)) ;;
  drainGPS fuel ;;
  call comm_tick ;;
  call telemetry_tick ;;
  call beep_tick ;;
  call door_tick.

(** Lines 209-232: send telemetry. *)
Definition telemetryTask (now : Z) : M unit :=
  st <- timer_getState telemetryUpdateTimer now ;;
  when (CMilliTimer.is_expired st)
    ((* Blink the LED *)
     hb <- gets g_heartbeat ;;
     set_heartbeat (negb hb) ;;
     output (digitalWrite_heartbeat (negb hb)) ;;
     (* Reset the timer *)
     timer_start_at telemetryUpdateTimer now TELEMETRY_UPDATE ;;
     (* Send telemetry version number *)
     call transmissionStart ;;
     call (sendTerm (term_tag telemetry_tag_version)) ;;
     call (sendTerm TELEMETRY_VERSION_01) ;;
     call transmissionEnd ;;
     (* Send standing errors *)
     sendErrors ;;
     (* And the rest of the telemetry *)
     call sunCalc_sendTelemetry ;;
     call door_sendTelemetry ;;
     call light_sendTelemetry).

(** Lines 239-257: restart the timer, report on the data stream. *)
Definition timeCheckReport (now : Z) : M unit :=
  (* Prep for next update *)
  locked <- gets (fun s => m_GPSLocked (ext s)) ;;
  (if locked
   then timer_start_at timeCheckTimer now TIME_CHECK_UPDATE_GPS_LOCK
   else timer_start_at timeCheckTimer now TIME_CHECK_UPDATE_NO_GPS_LOCK) ;;
  (* If the GPS is not sending any data then report an error *)
  active <- gets s_gpsDataStreamActive ;;
  (if negb active then
     call gps_clear ;;
     reportError (telemetry_error_GPS_no_data tags) true
   else
     reportError (telemetry_error_GPS_no_data tags) false) ;;
  set_gpsDataStreamActive false.

(** Lines 259-264: if we have a valid time fix, control the door and
    light. *)
Definition timeCheckSchedule : M unit :=
  valid <- gets (fun s => processGPSData (ext s)) ;;
  call sunCalc_processGPSData ;;
  when valid
    (call door_checkTime ;;
     call light_checkTime).

(** Lines 234-265: the time check. *)
Definition timeCheckTask (now : Z) : M unit :=
  st <- timer_getState timeCheckTimer now ;;
  when (CMilliTimer.is_expired st)
    (timeCheckReport now ;;
     timeCheckSchedule).

(** The clock is read once per pass of [loop]: both timers are polled and
    restarted against the same reading. *)
Definition loop (now : Z) : M unit :=
  loopIntake ;;
  telemetryTask now ;;
  timeCheckTask now.

(** ** Running the sketch *)

(** What the environment does between two passes of [loop]: the clock
    advances and bytes arrive on the GPS port. *)
Record Input := { clock : Z; arrived : list byte }.

Definition receive (bytes : list byte) (s : State) : State :=
  mkState (s_gpsDataStreamActive s) (settingsLoaded s) (g_timeCheckTimer s)
    (g_telemetryUpdateTimer s) (g_heartbeat s) (s_errorFlags s)
    (gps_serial s ++ bytes) (ext s) (trace s).

Definition iteration (i : Input) (s : State) : State :=
  exec (loop (clock i)) (receive (arrived i) s).

Definition run (inputs : list Input) (s : State) : State :=
  fold_left (fun s i => iteration i s) inputs s.

(** The globals as their initialisers leave them (lines 27, 40, 60, 279),
    over given collaborators, before [setup]; the two timers are restarted
    by [setup] before they are polled. *)
Definition power_on (e : Ext) : State :=
  mkState false false
    (CMilliTimer.mk 0 0 CMilliTimer.expired)
    (CMilliTimer.mk 0 0 CMilliTimer.expired)
    false 0 [] e [].

(** Whether the time check fires in the pass that starts in [s]. *)
Definition timeCheckDue (now : Z) (s : State) : bool :=
  CMilliTimer.is_expired (CMilliTimer.getState now (g_timeCheckTimer s)).

Definition telemetryDue (now : Z) (s : State) : bool :=
  CMilliTimer.is_expired (CMilliTimer.getState now (g_telemetryUpdateTimer s)).

End Sketch.

Arguments State {W}.
Arguments M {W} A.

Notation "x <- c ;; k" := (bind c (fun x => k))
  (at level 61, c at next level, right associativity).
Notation "c ;; k" := (bind c (fun _ => k))
  (at level 61, right associativity).

(** ** Observations on states and traces *)

(** What is written on the debug console, what is beeped. *)
Definition is_console (c : Call) : bool :=
  match c with debug_print _ | debug_println _ => true | _ => false end.

Definition is_beep (c : Call) : bool :=
  match c with beep _ _ _ _ => true | _ => false end.

Definition console (t : list Call) : list Call := filter is_console t.
Definition beeps (t : list Call) : list Call := filter is_beep t.

(** A trace without what is written on the debug console. *)
Definition quiet (t : list Call) : list Call :=
  filter (fun c => negb (is_console c)) t.

(** The calls of a default-write pass: a sub-component told to store its
    compiled-in defaults. *)
Definition is_default_write (c : Call) : bool :=
  match c with
  | door_saveSettings true | light_saveSettings true => true
  | _ => false
  end.

Definition is_load (c : Call) : bool :=
  match c with door_loadSettings | light_loadSettings => true | _ => false end.

(** Modelled from the spec: the save controller and the sub-components'
    serializers are not part of the sketch.  "A persisted byte region
    prefixed by a 4-byte magic tag and a 1-byte version number"; "each
    sub-component owns a disjoint sub-range within the blob": [updateHeader]
    stores the version it is given, and no other call changes the stored
    version. *)
Definition StoreKeepsVersion (W : Collaborators) : Prop :=
  (forall e, getDataVersion (ext_call (save_updateHeader GARYCOOPER_DATA_VERSION) e)
             = GARYCOOPER_DATA_VERSION) /\
  (forall c e, (forall v, c <> save_updateHeader v) ->
               getDataVersion (ext_call c e) = getDataVersion e).

(** The entries of the trace that are writes on pins and ports and timer
    restarts, see [output]. *)
Definition is_output (c : Call) : bool :=
  match c with
  | timer_start _ _ | pinMode_heartbeat_output | digitalWrite_heartbeat _
  | debug_begin | gps_begin | debug_print _ | debug_println _ => true
  | _ => false
  end.

Definition is_parse (c : Call) : bool :=
  match c with gps_parse _ => true | _ => false end.

(** The calls of lines 164-197: the settings, the parser and the debug
    console. *)
Definition is_intake (c : Call) : bool :=
  match c with
  | save_updateHeader _ | save_rewind
  | door_saveSettings _ | light_saveSettings _
  | door_loadSettings | light_loadSettings
  | gps_parse _ | debug_print _ | debug_println _ => true
  | _ => false
  end.

(** The calls of lines 209-232. *)
Definition is_telemetry (c : Call) : bool :=
  match c with
  | digitalWrite_heartbeat _ | timer_start telemetryUpdateTimer _
  | transmissionStart | sendTerm _ | transmissionEnd
  | sunCalc_sendTelemetry | door_sendTelemetry | light_sendTelemetry => true
  | _ => false
  end.

(** The effect of a stretch of the trace on the collaborators. *)
Definition apply_calls {W : Collaborators} (d : list Call) (e : Ext) : Ext :=
  fold_left (fun e c => if is_output c then e else ext_call c e) d e.

(** The chunks handed to the parser, in order. *)
Fixpoint parsed (t : list Call) : list (list byte) :=
  match t with
  | [] => []
  | gps_parse data :: rest => data :: parsed rest
  | _ :: rest => parsed rest
  end.

(** Modelled from the spec: the parser is not part of the sketch.  It
    "exposes a fix-state accessor including a lock boolean and a clear() to
    reset stale state": [clear()] drops the lock, and only parsing can bring
    it back. *)
Definition FixLockedOnlyByParser (W : Collaborators) : Prop :=
  (forall e, m_GPSLocked (ext_call gps_clear e) = false) /\
  (forall c e, is_parse c = false -> m_GPSLocked e = false ->
               m_GPSLocked (ext_call c e) = false).

(** The calls made after [s] on the way to [s']. *)
Definition since {W : Collaborators} (s s' : State) : list Call :=
  skipn (List.length (trace s)) (trace s').

Section Observations.

Context {W : Collaborators}.
Variable cfg : BuildConfig.
Variable tags : TelemetryTags.

(** The test of lines 288 and 297, for the tag of kind [k]. *)
Definition flagSet (k : ErrorKind) (s : State) : bool :=
  negb (Z.land (s_errorFlags s) (tagOf tags k) =? 0).

(** The names the [switch] of [reportError] prints. *)
Definition kindName (k : ErrorKind) : string :=
  match k with
  | GPS_no_data => "telemetry_error_GPS_no_data"
  | GPS_bad_data => "telemetry_error_GPS_bad_data"
  | GPS_not_locked => "telemetry_error_GPS_not_locked"
  | suncalc_invalid_time => "telemetry_error_suncalc_invalid_time"
  | no_door_motor => "telemetry_error_no_door_motor"
  | door_motor_unknown_state => "telemetry_error_door_motor_unknown_state"
  | door_motor_unknown_not_responding =>
      "telemetry_error_door_motor_unknown_not_responding"
  end.

(** The beep counts the [switch] of [reportError] assigns. *)
Definition beepCountOf (k : ErrorKind) : Z :=
  match k with
  | GPS_no_data => 1
  | GPS_bad_data => 2
  | GPS_not_locked => 3
  | suncalc_invalid_time => 4
  | no_door_motor => 5
  | door_motor_unknown_state => 6
  | door_motor_unknown_not_responding => 7
  end.

(** The calls of one announcement of kind [k], in the order of lines
    348-363. *)
Definition announcement (k : ErrorKind) (_set : bool) : list Call :=
  [debug_println ""]
  ++ (if _set
      then debug_print "*** SET ERROR: "
           :: (if BEEP_ON_ERROR cfg
               then [beep BEEP_FREQ_ERROR 100 50 (beepCountOf k)] else [])
      else [debug_print "*** CLEAR ERROR: "])
  ++ [debug_println (kindName k); debug_println ""].

(** A sequence of reports, as any caller of [reportError] may make them. *)
Fixpoint reportAll (calls : list (ErrorKind * bool)) : M unit :=
  match calls with
  | [] => ret tt
  | (k, b) :: rest => reportError cfg tags (tagOf tags k) b ;; reportAll rest
  end.

(** The value last reported for [k] in [calls], or [d] when there is none. *)
Fixpoint lastReport (k : ErrorKind) (d : bool) (calls : list (ErrorKind * bool))
  : bool :=
  match calls with
  | [] => d
  | (k', b) :: rest => lastReport k (if ErrorKind_eqb k k' then b else d) rest
  end.

(** The alert on assertion, read as holding in every build: each
    set-transition beeps. *)
Definition alert_on_every_set_transition : Prop :=
  forall k s, flagSet k s = false ->
    beeps (since s (exec (reportError cfg tags (tagOf tags k) true) s)) <> [].

(** The input drain, read as taking one scratch buffer per pass of [loop]:
    a pass takes no more bytes off the port than the buffer holds. *)
Definition one_buffer_per_pass : Prop :=
  forall now s,
    (List.length (gps_serial s)
     - List.length (gps_serial (exec (loop cfg tags now) s)) <= 256)%nat.

(** The states in which a pass of [loop] reaches line 209 and line 237, and
    the state in which a time check that starts in [s] reaches line 259. *)
Definition atTelemetry (s : State) : State := exec (loopIntake cfg) s.

Definition atTimeCheck (now : Z) (s : State) : State :=
  exec (telemetryTask now) (atTelemetry s).

Definition atSchedule (now : Z) (s : State) : State :=
  exec (timeCheckReport cfg tags now)
    (exec (timer_getState timeCheckTimer now) s).

(** The fields of the sketch that the input drain and the settings leave as
    they are. *)
Definition keeps_register (s s' : State) : Prop :=
  s_errorFlags s' = s_errorFlags s /\
  g_timeCheckTimer s' = g_timeCheckTimer s /\
  g_telemetryUpdateTimer s' = g_telemetryUpdateTimer s /\
  g_heartbeat s' = g_heartbeat s.

(** The state in which a time check that starts in [s] reaches line 247
    (after the restart of the timer) or, when no data came, line 250 (after
    the fix is cleared). *)
Definition atReport (now : Z) (s : State) : State :=
  let period := if m_GPSLocked (ext s) then TIME_CHECK_UPDATE_GPS_LOCK
                else TIME_CHECK_UPDATE_NO_GPS_LOCK in
  mkState (s_gpsDataStreamActive s) (settingsLoaded s)
    (CMilliTimer.mk period (now + period) CMilliTimer.running)
    (g_telemetryUpdateTimer s) (g_heartbeat s) (s_errorFlags s) (gps_serial s)
    (if s_gpsDataStreamActive s then ext s else ext_call gps_clear (ext s))
    (trace s ++ timer_start timeCheckTimer period
             :: (if s_gpsDataStreamActive s then [] else [gps_clear])).

(** The number of passes of a run in which the time check fires. *)
Fixpoint firings (inputs : list Input) (s : State) : nat :=
  match inputs with
  | [] => O
  | i :: rest =>
      ((if timeCheckDue (clock i) s then 1 else 0)
       + firings rest (iteration cfg tags i s))%nat
  end.

(** The number of passes of a run in which the flag of kind [k] goes from
    [negb to] to [to]: the times the error becomes set ([to = true]) or
    becomes clear ([to = false]). *)
Fixpoint edges (to : bool) (k : ErrorKind) (inputs : list Input) (s : State)
  : nat :=
  match inputs with
  | [] => O
  | i :: rest =>
      let s' := iteration cfg tags i s in
      ((if Bool.eqb (flagSet k s) (negb to) && Bool.eqb (flagSet k s') to
        then 1 else 0)
       + edges to k rest s')%nat
  end.

(** The restart after a time check that found no data, read as
    unconditional: whatever happens up to the next firing, the timer is then
    restarted for the short period. *)
Definition short_rearm_after_silence : Prop :=
  forall i s between j,
    let s1 := iteration cfg tags i s in
    let s2 := run cfg tags between s1 in
    timeCheckDue (clock i) s = true ->
    s_gpsDataStreamActive s = false -> gps_serial s = [] -> arrived i = [] ->
    firings between s1 = O ->
    timeCheckDue (clock j) s2 = true ->
    CMilliTimer.duration (g_timeCheckTimer (iteration cfg tags j s2))
    = TIME_CHECK_UPDATE_NO_GPS_LOCK.

(** [s'] is reached from [s] by making the calls [d]. *)
Definition reaches (s : State) (d : list Call) (s' : State) : Prop :=
  trace s' = trace s ++ d /\ ext s' = apply_calls d (ext s).

End Observations.

(** ** Simulated collaborators *)

(** Modelled from the spec: the collaborators' code is not part of the
    sketch.  The settings store keeps a one-byte version in its header
    ("prefixed by a 4-byte magic tag and a 1-byte version number"); the
    parser's fix state has a lock boolean that [clear()] resets; the
    astronomy collaborator's time is valid when the fix is locked.  The
    stand-in parser locks on a chunk that holds the NMEA status letter A and
    unlocks on one that holds V. *)
Record SimExt := { sim_version : Z; sim_locked : bool }.

Definition has_byte (b : byte) (l : list byte) : bool :=
  existsb (Byte.eqb b) l.

Definition sim_call (c : Call) (e : SimExt) : SimExt :=
  match c with
  | save_updateHeader v =>
      {| sim_version := v mod 256; sim_locked := sim_locked e |}
  | gps_parse data =>
      {| sim_version := sim_version e;
         sim_locked := if has_byte x41 data then true
                       else if has_byte x56 data then false
                       else sim_locked e |}
  | gps_clear => {| sim_version := sim_version e; sim_locked := false |}
  | _ => e
  end.

Definition Sim : Collaborators :=
  {| Ext := SimExt;
     ext_call := sim_call;
     getDataVersion := sim_version;
     m_GPSLocked := sim_locked;
     processGPSData := sim_locked |}.

(** Enumerator values with one bit per kind, in the order of the [switch]. *)
Definition sim_tags : TelemetryTags :=
  {| telemetry_error_GPS_no_data := 1;
     telemetry_error_GPS_bad_data := 2;
     telemetry_error_GPS_not_locked := 4;
     telemetry_error_suncalc_invalid_time := 8;
     telemetry_error_no_door_motor := 16;
     telemetry_error_door_motor_unknown_state := 32;
     telemetry_error_door_motor_unknown_not_responding := 64 |}.

Definition beeping : BuildConfig :=
  {| BEEP_ON_ERROR := true; DEBUG_SETTINGS := false; DEBUG_RAW_GPS := false |}.

(** The build the sketch and GaryCooper.h give: none of the three symbols is
    defined. *)
Definition as_given : BuildConfig :=
  {| BEEP_ON_ERROR := false; DEBUG_SETTINGS := false; DEBUG_RAW_GPS := false |}.

(** Two NMEA sentences: a position with status A (data valid) and one with
    status V (void). *)
Definition rmc_valid : list byte :=
  list_byte_of_string "$GPRMC,120000,A,4807.038,N,01131.000,E,0.0,0.0,010120,,".

Definition rmc_void : list byte := list_byte_of_string "$GPRMC,,V,,,,,,,,,,N".

(** The sketch after [setup] at clock 0, over the simulated collaborators. *)
Definition sim_start (version : Z) (locked : bool) : @State Sim :=
  exec (setup 0) (power_on (W := Sim) {| sim_version := version; sim_locked := locked |}).

(** A run over the simulated collaborators: a first time check at 5000 ms
    with the fix unlocked, a sentence with status A at 6000 ms, and the state
    in which the pass at 10000 ms starts. *)
Definition sim_unlocked_firing : @State Sim :=
  iteration as_given sim_tags {| clock := 5000; arrived := rmc_void |}
    (sim_start 1 false).

Definition sim_locked_since : @State Sim :=
  iteration as_given sim_tags {| clock := 6000; arrived := rmc_valid |}
    sim_unlocked_firing.

(** 300 bytes waiting on the GPS port at the start of a pass. *)
Definition sim_backlog : @State Sim :=
  receive (repeat x24 300) (sim_start 1 false).

(** Three time checks in silence, then three with bytes coming in. *)
Definition silence : list Input :=
  [ {| clock := 5000; arrived := [] |};
    {| clock := 7000; arrived := [] |};
    {| clock := 10000; arrived := [] |};
    {| clock := 15000; arrived := [] |} ].

Definition resumed : list Input :=
  [ {| clock := 17000; arrived := rmc_void |};
    {| clock := 20000; arrived := rmc_void |};
    {| clock := 25000; arrived := rmc_valid |} ].

(** A locked fix, a time check at 5000 ms that finds no data, and a sentence
    with status A that is waiting when the next time check is due. *)
Definition sim_lock_lost : @State Sim :=
  iteration as_given sim_tags {| clock := 5000; arrived := [] |}
    (sim_start 1 true).

Definition sim_lock_back : Input := {| clock := 65000; arrived := rmc_valid |}.

(** A build with the echo of the raw GPS data (line 8 of GaryCooper.h with
    the comment signs taken off), and the sketch of that build after a first
    pass at 100 ms. *)
Definition raw_echo : BuildConfig :=
  {| BEEP_ON_ERROR := false; DEBUG_SETTINGS := false; DEBUG_RAW_GPS := true |}.

Definition sim_raw_loaded : @State Sim :=
  iteration raw_echo sim_tags {| clock := 100; arrived := [] |}
    (sim_start 1 false).

(** Four bytes, the third of them NUL. *)
Definition with_nul : Input := {| clock := 200; arrived := [x24; x47; x00; x50] |}.

(** ** Further observations *)

(** The four calls of lines 199-207. *)
Definition is_tick (c : Call) : bool :=
  match c with
  | comm_tick | telemetry_tick | beep_tick | door_tick => true
  | _ => false
  end.

(** The calls on the settings store and on the sub-components' settings. *)
Definition is_store (c : Call) : bool :=
  match c with
  | save_updateHeader _ | save_rewind
  | door_saveSettings _ | light_saveSettings _
  | door_loadSettings | light_loadSettings => true
  | _ => false
  end.

(** The calls of lines 237-265. *)
Definition is_timecheck (c : Call) : bool :=
  match c with
  | timer_start timeCheckTimer _ | gps_clear
  | debug_print _ | debug_println _ | beep _ _ _ _
  | sunCalc_processGPSData | door_checkTime | light_checkTime => true
  | _ => false
  end.

Definition is_heartbeat_write (c : Call) : bool :=
  match c with digitalWrite_heartbeat _ => true | _ => false end.

(** The calls of lines 172-197. *)
Definition is_drain (c : Call) : bool :=
  match c with gps_parse _ | debug_print _ => true | _ => false end.

(** The four calls of lines 199-207, in their order. *)
Definition ticks : list Call := [comm_tick; telemetry_tick; beep_tick; door_tick].

(** The calls that are none of the telemetry framer's. *)
Definition off_frame (c : Call) : bool :=
  match c with
  | transmissionStart | sendTerm _ | transmissionEnd
  | sunCalc_sendTelemetry | door_sendTelemetry | light_sendTelemetry => false
  | _ => true
  end.

(** The calls of lines 212-231, for the heartbeat and the error word found
    at line 210. *)
Definition telemetryCalls (hb : bool) (word : Z) : list Call :=
  [digitalWrite_heartbeat (negb hb);
   timer_start telemetryUpdateTimer TELEMETRY_UPDATE;
   transmissionStart;
   sendTerm (term_tag telemetry_tag_version);
   sendTerm TELEMETRY_VERSION_01;
   transmissionEnd;
   transmissionStart;
   sendTerm (term_tag telemetry_tag_error_flags);
   sendTerm (term_word word);
   transmissionEnd;
   sunCalc_sendTelemetry;
   door_sendTelemetry;
   light_sendTelemetry].

(** The calls on the telemetry framer, followed through a trace: [open]
    tells whether a transmission is open; the result is [None] when a
    transmission is started inside another, a term is sent or a transmission
    ended outside one, or a collaborator is asked for its telemetry while the
    sketch's own transmission is open. *)
Fixpoint framer (open : bool) (t : list Call) : option bool :=
  match t with
  | [] => Some open
  | transmissionStart :: rest => if open then None else framer true rest
  | sendTerm _ :: rest => if open then framer true rest else None
  | transmissionEnd :: rest => if open then framer false rest else None
  | sunCalc_sendTelemetry :: rest
  | door_sendTelemetry :: rest
  | light_sendTelemetry :: rest => if open then None else framer false rest
  | _ :: rest => framer open rest
  end.

(** A buffer cut into pieces of 255 bytes, the last one shorter when the
    length is no multiple of 255. *)
Fixpoint chunksOf (fuel : nat) (l : list byte) : list (list byte) :=
  match fuel with
  | O => []
  | S fuel' =>
      match l with
      | [] => []
      | _ :: _ => firstn 255 l :: chunksOf fuel' (skipn 255 l)
      end
  end.

(** The calls of the input drain (lines 172-197) for the bytes [l] waiting
    on the port: chunk by chunk, the echo on the debug console when
    DEBUG_RAW_GPS is defined, then the parser. *)
Definition drainCalls (cfg : BuildConfig) (l : list byte) : list Call :=
  flat_map
    (fun c => (if DEBUG_RAW_GPS cfg then [debug_print (c_string c)] else [])
              ++ [gps_parse c])
    (chunksOf (List.length l) l).

(** A value of the width of [s_errorFlags]. *)
Definition is_uint16 (z : Z) : Prop := 0 <= z < 65536.

(** The error word that [reportError] leaves (lines 285-302), as a function
    of the word it finds. *)
Definition wordAfter (_errorTag : Z) (_set : bool) (flags : Z) : Z :=
  if _set then
    if negb (Z.land flags _errorTag =? 0) then flags
    else uint16 (Z.lor flags _errorTag)
  else
    if Z.land flags _errorTag =? 0 then flags
    else uint16 (Z.land flags (Z.lnot _errorTag)).

(** Whether [reportError] goes on to announce, or returns at line 289 or
    298. *)
Definition announces (_errorTag : Z) (_set : bool) (flags : Z) : bool :=
  if _set then Z.land flags _errorTag =? 0
  else negb (Z.land flags _errorTag =? 0).

Section Runs.

Context {W : Collaborators}.
Variable cfg : BuildConfig.
Variable tags : TelemetryTags.

(** The number of passes of a run in which the telemetry is sent. *)
Fixpoint telemetryFirings (inputs : list Input) (s : State) : nat :=
  match inputs with
  | [] => O
  | i :: rest =>
      ((if telemetryDue (clock i) s then 1 else 0)
       + telemetryFirings rest (iteration cfg tags i s))%nat
  end.

End Runs.

(** ** Bits of the error word *)

Lemma bitOfTag_sound v b :
  bitOfTag v = Some b -> 0 <= b < 16 /\ v = 2 ^ b.
Proof.
  unfold bitOfTag. intros H. apply find_some in H. destruct H as [Hin Hv].
  apply Z.eqb_eq in Hv. split; [|exact Hv].
  simpl in Hin. intuition lia.
Qed.

Lemma one_bit T k :
  OneBitPerKind T -> exists b, 0 <= b < 16 /\ tagOf T k = 2 ^ b.
Proof.
  intros [H _]. specialize (H k).
  destruct (bitOfTag (tagOf T k)) as [b|] eqn:E; [|congruence].
  exists b. now apply bitOfTag_sound.
Qed.

Lemma ErrorKind_eqb_eq a b : ErrorKind_eqb a b = true <-> a = b.
Proof. destruct a, b; simpl; split; congruence. Qed.

Lemma land_pow2 f b :
  0 <= b -> Z.land f (2 ^ b) = if Z.testbit f b then 2 ^ b else 0.
Proof.
  intros Hb. apply Z.bits_inj'. intros i Hi.
  rewrite Z.land_spec, Z.pow2_bits_eqb by lia.
  destruct (Z.eqb_spec b i) as [->|Hne].
  - destruct (Z.testbit f i); rewrite ?Z.pow2_bits_true, ?Z.bits_0 by lia;
      simpl; auto.
  - rewrite andb_false_r.
    destruct (Z.testbit f b); rewrite ?Z.pow2_bits_false, ?Z.bits_0 by lia; auto.
Qed.

Lemma land_pow2_zero f b :
  0 <= b -> (Z.land f (2 ^ b) =? 0) = negb (Z.testbit f b).
Proof.
  intros Hb. rewrite land_pow2 by lia.
  destruct (Z.testbit f b); simpl; [|reflexivity].
  apply Z.eqb_neq. pose proof (Z.pow_pos_nonneg 2 b). lia.
Qed.

Lemma testbit_uint16_set f b i :
  0 <= b < 16 -> 0 <= i < 16 ->
  Z.testbit (uint16 (Z.lor f (2 ^ b))) i = (b =? i) || Z.testbit f i.
Proof.
  intros Hb Hi. unfold uint16. change 65536 with (2 ^ 16).
  rewrite Z.mod_pow2_bits_low by lia.
  rewrite Z.lor_spec, Z.pow2_bits_eqb by lia. apply orb_comm.
Qed.

Lemma testbit_uint16_clear f b i :
  0 <= b < 16 -> 0 <= i < 16 ->
  Z.testbit (uint16 (Z.land f (Z.lnot (2 ^ b)))) i
  = Z.testbit f i && negb (b =? i).
Proof.
  intros Hb Hi. unfold uint16. change 65536 with (2 ^ 16).
  rewrite Z.mod_pow2_bits_low by lia.
  rewrite Z.land_spec, Z.lnot_spec, Z.pow2_bits_eqb by lia. reflexivity.
Qed.

(** ** The error register *)

Section ErrorRegister.

Context {W : Collaborators}.
Variable cfg : BuildConfig.
Variable tags : TelemetryTags.

Lemma skipn_length_app {A} (l d : list A) : skipn (List.length l) (l ++ d) = d.
Proof. induction l; simpl; auto. Qed.

Lemma since_app (s s' : State) d : trace s' = trace s ++ d -> since s s' = d.
Proof. unfold since. intros ->. apply skipn_length_app. Qed.

Lemma flagSet_testbit k s b :
  0 <= b -> tagOf tags k = 2 ^ b ->
  flagSet tags k s = Z.testbit (s_errorFlags s) b.
Proof.
  intros Hb E. unfold flagSet. rewrite E, land_pow2_zero by lia.
  apply negb_involutive.
Qed.

Ltac kind_of x :=
  lazymatch x with
  | telemetry_error_GPS_no_data _ => constr:(GPS_no_data)
  | telemetry_error_GPS_bad_data _ => constr:(GPS_bad_data)
  | telemetry_error_GPS_not_locked _ => constr:(GPS_not_locked)
  | telemetry_error_suncalc_invalid_time _ => constr:(suncalc_invalid_time)
  | telemetry_error_no_door_motor _ => constr:(no_door_motor)
  | telemetry_error_door_motor_unknown_state _ =>
      constr:(door_motor_unknown_state)
  | telemetry_error_door_motor_unknown_not_responding _ =>
      constr:(door_motor_unknown_not_responding)
  end.

Ltac clash Hinj e :=
  lazymatch type of e with
  | ?x = ?y =>
      let a := kind_of x in
      let b := kind_of y in
      let H := fresh in
      pose proof (Hinj a b e) as H; discriminate H
  end.

(** Under distinct enumerator values the [switch] finds the name and the
    beep count of the kind. *)
Lemma describeError_kind k :
  (forall a b, tagOf tags a = tagOf tags b -> a = b) ->
  describeError tags (tagOf tags k) = (kindName k, beepCountOf k).
Proof.
  intros Hinj. unfold describeError.
  destruct k; cbn [tagOf kindName beepCountOf];
    repeat (match goal with
            | |- context [?x =? ?y] =>
                let e := fresh "e" in
                destruct (Z.eqb_spec x y) as [e|e];
                [first [clash Hinj e | reflexivity] | try congruence]
            end).

Qed.

Lemma reportError_noop_set k s :
  flagSet tags k s = true ->
  reportError cfg tags (tagOf tags k) true s = (tt, s).
Proof.
  unfold flagSet, reportError, bind, gets. intros H.
  rewrite H. reflexivity.
Qed.

Lemma reportError_noop_clear k s :
  flagSet tags k s = false ->
  reportError cfg tags (tagOf tags k) false s = (tt, s).
Proof.
  unfold flagSet, reportError, bind, gets. intros H.
  apply negb_false_iff in H. rewrite H. reflexivity.
Qed.

(** The calls of one announcement (lines 348-363). *)
Lemma reportError_transition k b s :
  (forall a b, tagOf tags a = tagOf tags b -> a = b) ->
  flagSet tags k s = negb b ->
  let s' := exec (reportError cfg tags (tagOf tags k) b) s in
  s_errorFlags s' =
    (if b then uint16 (Z.lor (s_errorFlags s) (tagOf tags k))
     else uint16 (Z.land (s_errorFlags s) (Z.lnot (tagOf tags k)))) /\
  trace s' = trace s ++ announcement cfg k b /\
  s_gpsDataStreamActive s' = s_gpsDataStreamActive s /\
  settingsLoaded s' = settingsLoaded s /\
  g_timeCheckTimer s' = g_timeCheckTimer s /\
  g_telemetryUpdateTimer s' = g_telemetryUpdateTimer s /\
  g_heartbeat s' = g_heartbeat s /\
  gps_serial s' = gps_serial s.
Proof.
  intros Hinj H. unfold flagSet in H.
  unfold exec, reportError, bind, gets, announceError.
  rewrite (describeError_kind k Hinj).
  destruct b; simpl in H.
  - apply negb_false_iff in H. rewrite H. simpl.
    destruct (BEEP_ON_ERROR cfg) eqn:Eb; unfold announcement; rewrite Eb; simpl;
      rewrite <- ?app_assoc; simpl; repeat split; reflexivity.
  - apply negb_true_iff in H. rewrite H.
    unfold announcement. simpl.
    rewrite <- ?app_assoc; simpl; repeat split; reflexivity.
Qed.

Lemma reportError_flag k k' b s :
  OneBitPerKind tags ->
  flagSet tags k (exec (reportError cfg tags (tagOf tags k') b) s)
  = if ErrorKind_eqb k k' then b else flagSet tags k s.
Proof.
  intros HT.
  destruct (one_bit tags k HT) as (i & Hi & Ei).
  destruct (one_bit tags k' HT) as (j & Hj & Ej).
  assert (Hij : ErrorKind_eqb k k' = (j =? i)).
  { destruct (Z.eqb_spec j i) as [->|Hne].
    - rewrite <- Ej in Ei. apply (proj2 HT) in Ei. subst k'. now destruct k.
    - destruct (ErrorKind_eqb k k') eqn:Ek; [|reflexivity].
      apply ErrorKind_eqb_eq in Ek. subst k'. exfalso. apply Hne.
      apply (Z.pow_inj_r 2); lia. }
  destruct (flagSet tags k' s) eqn:Fk'.
  - destruct b.
    + unfold exec. rewrite reportError_noop_set by assumption. simpl.
      rewrite Hij. destruct (Z.eqb_spec j i) as [->|]; [|reflexivity].
      rewrite (flagSet_testbit k s) with (b := i) by (lia || assumption).
      rewrite (flagSet_testbit k' s) with (b := i) in Fk' by (lia || assumption).
      now rewrite Fk'.
    + destruct (reportError_transition k' false s (proj2 HT) Fk') as (Hf & _).
      rewrite (flagSet_testbit k _) with (b := i) by (lia || assumption).
      rewrite Hf, Ej, testbit_uint16_clear by lia.
      rewrite Hij. rewrite (flagSet_testbit k s) with (b := i) by (lia || assumption).
      destruct (j =? i); simpl; [apply andb_false_r | apply andb_true_r].
  - destruct b.
    + destruct (reportError_transition k' true s (proj2 HT) Fk') as (Hf & _).
      rewrite (flagSet_testbit k _) with (b := i) by (lia || assumption).
      rewrite Hf, Ej, testbit_uint16_set by lia.
      rewrite Hij. rewrite (flagSet_testbit k s) with (b := i) by (lia || assumption).
      destruct (j =? i); reflexivity.
    + unfold exec. rewrite reportError_noop_clear by assumption. simpl.
      rewrite Hij. destruct (Z.eqb_spec j i) as [->|]; [|reflexivity].
      rewrite (flagSet_testbit k s) with (b := i) by (lia || assumption).
      rewrite (flagSet_testbit k' s) with (b := i) in Fk' by (lia || assumption).
      now rewrite Fk'.
Qed.

Lemma reportAll_last k calls :
  OneBitPerKind tags ->
  forall s, flagSet tags k (exec (reportAll cfg tags calls) s)
            = lastReport k (flagSet tags k s) calls.
Proof.
  intros HT. induction calls as [|[k' b] rest IH]; intros s; [reflexivity|].
  cbn [reportAll lastReport].
  unfold exec, bind in *.
  destruct (reportError cfg tags (tagOf tags k') b s) as [u s1] eqn:E.
  rewrite IH. f_equal.
  pose proof (reportError_flag k k' b s HT) as H.
  unfold exec in H. rewrite E in H. exact H.
Qed.

(** C1.  The report operation is edge-triggered and idempotent.  With one
    bit per error kind: asserting a clear flag twice in a row changes the word
    once (the second call returns the state untouched) and writes exactly one
    diagnostic on the console; asserting a set flag, or clearing a clear one,
    returns at once with the state untouched; and after any sequence of
    reports the flag of kind [k] is set iff the last report for [k] asserted
    it (from power-on, where the word is 0, it is clear if [k] was never
    reported). *)
Theorem reportError_edge_triggered (k : ErrorKind) :
  OneBitPerKind tags ->
  (forall s, flagSet tags k s = false ->
     let s1 := exec (reportError cfg tags (tagOf tags k) true) s in
     let s2 := exec (reportError cfg tags (tagOf tags k) true) s1 in
     s_errorFlags s1 = uint16 (Z.lor (s_errorFlags s) (tagOf tags k)) /\
     flagSet tags k s1 = true /\
     s2 = s1 /\
     console (since s s2) =
       [debug_println ""; debug_print "*** SET ERROR: ";
        debug_println (kindName k); debug_println ""]) /\
  (forall s, flagSet tags k s = true ->
     exec (reportError cfg tags (tagOf tags k) true) s = s) /\
  (forall s, flagSet tags k s = false ->
     exec (reportError cfg tags (tagOf tags k) false) s = s) /\
  (forall calls s,
     flagSet tags k (exec (reportAll cfg tags calls) s)
     = lastReport k (flagSet tags k s) calls) /\
  (forall calls e,
     flagSet tags k (exec (reportAll cfg tags calls) (power_on e)) = true
     <-> lastReport k false calls = true).
Proof.
  intros HT. repeat split.
  - apply (reportError_transition k true s (proj2 HT) H).
  - pose proof (reportError_flag k k true s HT) as F.
    rewrite (proj2 (ErrorKind_eqb_eq k k) eq_refl) in F. exact F.
  - unfold exec at 1. rewrite reportError_noop_set; [reflexivity|].
    pose proof (reportError_flag k k true s HT) as F.
    rewrite (proj2 (ErrorKind_eqb_eq k k) eq_refl) in F. exact F.
  - unfold exec at 1. rewrite reportError_noop_set.
    + simpl.
      destruct (reportError_transition k true s (proj2 HT) H) as (_ & Ht & _).
      rewrite (since_app _ _ _ Ht). unfold announcement.
      destruct (BEEP_ON_ERROR cfg); reflexivity.
    + pose proof (reportError_flag k k true s HT) as F.
      rewrite (proj2 (ErrorKind_eqb_eq k k) eq_refl) in F. exact F.
  - intros s H. unfold exec. now rewrite reportError_noop_set.
  - intros s H. unfold exec. now rewrite reportError_noop_clear.
  - intros calls s. now apply reportAll_last.
  - rewrite reportAll_last by assumption. unfold flagSet, power_on. simpl.
    auto.
  - rewrite reportAll_last by assumption. unfold flagSet, power_on. simpl.
    auto.
Qed.

(** C4, as amended.  Whether an asserted error beeps is decided by the build:
    with BEEP_ON_ERROR defined, every actual set-transition updates the word,
    writes the diagnostic of its kind and beeps once at the error frequency,
    100 ms on and 50 ms off, repeated as many times as the [switch] assigns
    to the kind, and these counts differ from kind to kind; without it the
    set-transition updates the word and writes the diagnostic but does not
    beep.  An actual clear-transition updates the word and writes its
    diagnostic and never beeps. *)
Theorem alert_on_set_transition_by_build (k : ErrorKind) :
  OneBitPerKind tags ->
  (forall s, flagSet tags k s = false ->
     let s' := exec (reportError cfg tags (tagOf tags k) true) s in
     s_errorFlags s' = uint16 (Z.lor (s_errorFlags s) (tagOf tags k)) /\
     flagSet tags k s' = true /\
     console (since s s') =
       [debug_println ""; debug_print "*** SET ERROR: ";
        debug_println (kindName k); debug_println ""] /\
     beeps (since s s') =
       if BEEP_ON_ERROR cfg
       then [beep BEEP_FREQ_ERROR 100 50 (snd (describeError tags (tagOf tags k)))]
       else []) /\
  snd (describeError tags (tagOf tags k)) = beepCountOf k /\
  (forall k', snd (describeError tags (tagOf tags k))
              = snd (describeError tags (tagOf tags k')) -> k = k') /\
  (forall s, flagSet tags k s = true ->
     let s' := exec (reportError cfg tags (tagOf tags k) false) s in
     s_errorFlags s' = uint16 (Z.land (s_errorFlags s) (Z.lnot (tagOf tags k))) /\
     flagSet tags k s' = false /\
     console (since s s') =
       [debug_println ""; debug_print "*** CLEAR ERROR: ";
        debug_println (kindName k); debug_println ""] /\
     beeps (since s s') = []).
Proof.
  intros HT. split; [|split; [|split]].
  - intros s H s'.
    destruct (reportError_transition k true s (proj2 HT) H) as (Hf & Ht & _).
    fold s' in Hf, Ht. split; [exact Hf|]. split.
    { pose proof (reportError_flag k k true s HT) as F.
      rewrite (proj2 (ErrorKind_eqb_eq k k) eq_refl) in F. exact F. }
    rewrite (since_app _ _ _ Ht), (describeError_kind k (proj2 HT)).
    unfold announcement. destruct (BEEP_ON_ERROR cfg); split; reflexivity.
  - now rewrite (describeError_kind k (proj2 HT)).
  - intros k'. rewrite !(describeError_kind _ (proj2 HT)).
    destruct k, k'; simpl; intros E; try reflexivity; discriminate E.
  - intros s H s'.
    destruct (reportError_transition k false s (proj2 HT) H) as (Hf & Ht & _).
    fold s' in Hf, Ht. split; [exact Hf|]. split.
    { pose proof (reportError_flag k k false s HT) as F.
      rewrite (proj2 (ErrorKind_eqb_eq k k) eq_refl) in F. exact F. }
    rewrite (since_app _ _ _ Ht). unfold announcement. split; reflexivity.
Qed.


End ErrorRegister.

Lemma sim_tags_one_bit : OneBitPerKind sim_tags.
Proof.
  split.
  - intros k. destruct k; vm_compute; discriminate.
  - intros k k'. destruct k, k'; vm_compute; intros E;
      try reflexivity; discriminate E.
Qed.

Lemma reportError_edge_triggered_witness :
  OneBitPerKind sim_tags /\
  flagSet sim_tags GPS_not_locked
    (exec (reportAll beeping sim_tags
             [(GPS_not_locked, true); (GPS_no_data, true); (GPS_not_locked, false)])
          (sim_start 1 false)) = false.
Proof.
  split; [exact sim_tags_one_bit|].
  destruct (reportError_edge_triggered (W := Sim) beeping sim_tags GPS_not_locked
              sim_tags_one_bit) as (_ & _ & _ & H & _).
  rewrite H. vm_compute. reflexivity.
Defined.

(** C4, as stated, fails in the build the sketch and its header give: the
    first report of missing GPS data changes the word and beeps nothing. *)
Lemma set_transition_without_alert :
  ~ alert_on_every_set_transition (W := Sim) as_given sim_tags.
Proof.
  intros H. apply (H GPS_no_data (sim_start 1 false) eq_refl).
  vm_compute. reflexivity.
Qed.

Lemma alert_on_set_transition_by_build_witness :
  OneBitPerKind sim_tags /\
  beeps (since (sim_start 1 false)
           (exec (reportError beeping sim_tags (tagOf sim_tags no_door_motor) true)
                 (sim_start 1 false)))
  = [beep BEEP_FREQ_ERROR 100 50 5].
Proof.
  split; [exact sim_tags_one_bit|].
  destruct (alert_on_set_transition_by_build (W := Sim) beeping sim_tags no_door_motor
              sim_tags_one_bit) as (H & _).
  destruct (H (sim_start 1 false) eq_refl) as (_ & _ & _ & Hb).
  rewrite Hb. reflexivity.
Defined.

(** ** Settings *)

Section Settings.

Context {W : Collaborators}.
Variable cfg : BuildConfig.

Ltac run_sketch :=
  unfold exec, bind, gets, when, call, output, modify, ret; simpl.

Ltac delta :=
  unfold since; simpl; rewrite <- ?app_assoc; simpl;
  rewrite ?skipn_length_app; simpl.

Lemma saveSettings_calls d s :
  quiet (since s (exec (saveSettings cfg d) s))
  = [save_updateHeader GARYCOOPER_DATA_VERSION; save_rewind;
     door_saveSettings d; light_saveSettings d].
Proof.
  unfold saveSettings. run_sketch.
  destruct (DEBUG_SETTINGS cfg); delta; reflexivity.
Qed.

Lemma loadSettings_calls s :
  quiet (since s (exec (loadSettings cfg) s))
  = (if getDataVersion (ext s) =? GARYCOOPER_DATA_VERSION then []
     else [save_updateHeader GARYCOOPER_DATA_VERSION; save_rewind;
           door_saveSettings true; light_saveSettings true])
    ++ [save_rewind; door_loadSettings; light_loadSettings].
Proof.
  unfold loadSettings, saveSettings. run_sketch.
  destruct (DEBUG_SETTINGS cfg); simpl;
    destruct (getDataVersion (ext s) =? GARYCOOPER_DATA_VERSION); simpl;
    delta; reflexivity.
Qed.

Lemma loadSettings_ext_match s :
  getDataVersion (ext s) = GARYCOOPER_DATA_VERSION ->
  ext (exec (loadSettings cfg) s)
  = ext_call light_loadSettings
      (ext_call door_loadSettings (ext_call save_rewind (ext s))).
Proof.
  intros E. apply Z.eqb_eq in E. unfold loadSettings. run_sketch.
  destruct (DEBUG_SETTINGS cfg); simpl; rewrite E; reflexivity.
Qed.

Lemma loadSettings_ext_mismatch s :
  getDataVersion (ext s) <> GARYCOOPER_DATA_VERSION ->
  ext (exec (loadSettings cfg) s)
  = ext_call light_loadSettings
      (ext_call door_loadSettings
         (ext_call save_rewind
            (ext_call (light_saveSettings true)
               (ext_call (door_saveSettings true)
                  (ext_call save_rewind
                     (ext_call (save_updateHeader GARYCOOPER_DATA_VERSION)
                        (ext s))))))).
Proof.
  intros E. apply Z.eqb_neq in E. unfold loadSettings, saveSettings.
  run_sketch.
  destruct (DEBUG_SETTINGS cfg); simpl; rewrite E; reflexivity.
Qed.

Lemma loadSettings_version s :
  StoreKeepsVersion W ->
  getDataVersion (ext (exec (loadSettings cfg) s)) = GARYCOOPER_DATA_VERSION.
Proof.
  intros [Hup Hkeep].
  destruct (Z.eq_dec (getDataVersion (ext s)) GARYCOOPER_DATA_VERSION) as [E|E].
  - rewrite loadSettings_ext_match by assumption.
    rewrite !Hkeep by (intros v; discriminate). exact E.
  - rewrite loadSettings_ext_mismatch by assumption.
    rewrite !Hkeep by (intros v; discriminate). apply Hup.
Qed.

(** C2.  On load, the default-write pass (door and light told to store their
    compiled-in defaults) is invoked iff the stored version differs from
    GARYCOOPER_DATA_VERSION; when invoked, the whole pass (header, rewind,
    door, light) comes before the rewind and the two loads, so no
    sub-component reads a value before the pass is complete; when the version
    matches, the load makes no save call at all. *)
Theorem loadSettings_default_write_pass (s : State) :
  let made := quiet (since s (exec (loadSettings cfg) s)) in
  (existsb is_default_write made = true
   <-> getDataVersion (ext s) <> GARYCOOPER_DATA_VERSION) /\
  (getDataVersion (ext s) <> GARYCOOPER_DATA_VERSION ->
   made = [save_updateHeader GARYCOOPER_DATA_VERSION; save_rewind;
           door_saveSettings true; light_saveSettings true]
          ++ [save_rewind; door_loadSettings; light_loadSettings]) /\
  (getDataVersion (ext s) = GARYCOOPER_DATA_VERSION ->
   made = [save_rewind; door_loadSettings; light_loadSettings]) /\
  (forall before after c, made = before ++ c :: after ->
     is_default_write c = true -> existsb is_load before = false).
Proof.
  intros made. subst made. rewrite loadSettings_calls.
  destruct (Z.eqb_spec (getDataVersion (ext s)) GARYCOOPER_DATA_VERSION) as [E|E];
    simpl.
  - split; [split; [discriminate | congruence]|].
    split; [congruence|]. split; [reflexivity|].
    intros before after c Hm Hc.
    assert (Hin : In c [save_rewind; door_loadSettings; light_loadSettings])
      by (rewrite Hm; apply in_elt).
    simpl in Hin. intuition (subst; discriminate).
  - split; [split; [auto | reflexivity]|].
    split; [reflexivity|]. split; [congruence|].
    intros before after c Hm Hc.
    destruct before as [|b0 [|b1 [|b2 [|b3 [|b4 [|b5 [|b6 before]]]]]]];
      simpl in Hm; inversion Hm; subst; simpl in *; try discriminate;
      try reflexivity.
    destruct before; discriminate.
Qed.

(** C10.  Every save pass, whatever its argument, first writes
    GARYCOOPER_DATA_VERSION into the header, then rewinds, then has the door
    and then the light store their settings; a load reads them back in the
    same order, door then light.  With a store in which [updateHeader] stores
    the version and no other call changes it, the stored version after any
    load is GARYCOOPER_DATA_VERSION, and a load that follows at once makes no
    save call: it only rewinds and loads. *)
Theorem saveSettings_writes_header_first (s : State) :
  StoreKeepsVersion W ->
  (forall d,
     quiet (since s (exec (saveSettings cfg d) s))
     = [save_updateHeader GARYCOOPER_DATA_VERSION; save_rewind;
        door_saveSettings d; light_saveSettings d]) /\
  (exists pass,
     quiet (since s (exec (loadSettings cfg) s))
     = pass ++ [save_rewind; door_loadSettings; light_loadSettings] /\
     (pass = [] \/
      pass = [save_updateHeader GARYCOOPER_DATA_VERSION; save_rewind;
              door_saveSettings true; light_saveSettings true])) /\
  (let s1 := exec (loadSettings cfg) s in
   getDataVersion (ext s1) = GARYCOOPER_DATA_VERSION /\
   quiet (since s1 (exec (loadSettings cfg) s1))
   = [save_rewind; door_loadSettings; light_loadSettings]).
Proof.
  intros HS. split; [|split].
  - intros d. apply saveSettings_calls.
  - rewrite loadSettings_calls.
    destruct (getDataVersion (ext s) =? GARYCOOPER_DATA_VERSION);
      eexists; split; [reflexivity | auto | reflexivity | auto].
  - intros s1. assert (E : getDataVersion (ext s1) = GARYCOOPER_DATA_VERSION)
      by (apply loadSettings_version; assumption).
    split; [exact E|].
    rewrite loadSettings_calls, E. reflexivity.
Qed.

End Settings.

Lemma Sim_store_keeps_version : StoreKeepsVersion Sim.
Proof.
  split.
  - intros e. reflexivity.
  - intros c e Hc. destruct c; try reflexivity. now elim (Hc version).
Qed.

Lemma saveSettings_writes_header_first_witness :
  StoreKeepsVersion Sim /\
  getDataVersion (ext (exec (loadSettings as_given) (sim_start 255 false)))
  = GARYCOOPER_DATA_VERSION.
Proof.
  split; [exact Sim_store_keeps_version|].
  destruct (saveSettings_writes_header_first (W := Sim) as_given
              (sim_start 255 false) Sim_store_keeps_version) as (_ & _ & H & _).
  exact H.
Defined.

(** ** The passes of loop *)

Section Loop.

Context {W : Collaborators}.
Variable cfg : BuildConfig.
Variable tags : TelemetryTags.

Ltac run_sketch :=
  unfold exec, bind, gets, when, call, output, modify, ret; simpl.

(** Unfold the monad and the projections of [State], arguments first. *)
Ltac step :=
  cbv beta iota zeta delta
    [exec bind gets when call output modify ret fst snd
     set_gpsDataStreamActive set_settingsLoaded set_timer set_heartbeat
     set_errorFlags set_gps_serial timer_of timer_getState timer_start_at
     s_gpsDataStreamActive settingsLoaded g_timeCheckTimer
     g_telemetryUpdateTimer g_heartbeat s_errorFlags gps_serial ext trace].

Lemma parsed_app t u : parsed (t ++ u) = parsed t ++ parsed u.
Proof.
  induction t as [|c t IH]; simpl; [reflexivity|].
  destruct c; simpl; rewrite IH; reflexivity.
Qed.

Lemma apply_calls_app d1 d2 (e : Ext) :
  apply_calls (d1 ++ d2) e = apply_calls d2 (apply_calls d1 e).
Proof. unfold apply_calls. apply fold_left_app. Qed.

Lemma keeps_register_refl s : keeps_register s s.
Proof. repeat split. Qed.

Lemma keeps_register_trans s1 s2 s3 :
  keeps_register s1 s2 -> keeps_register s2 s3 -> keeps_register s1 s3.
Proof.
  unfold keeps_register. intros (a & b & c & d) (a' & b' & c' & d').
  repeat split; congruence.
Qed.

Lemma reaches_refl s : reaches s [] s.
Proof. split; [now rewrite app_nil_r | reflexivity]. Qed.

Lemma reaches_trans s1 d1 s2 d2 s3 :
  reaches s1 d1 s2 -> reaches s2 d2 s3 -> reaches s1 (d1 ++ d2) s3.
Proof.
  intros [T1 E1] [T2 E2]. split.
  - now rewrite T2, T1, app_assoc.
  - now rewrite E2, E1, apply_calls_app.
Qed.

Lemma reaches_since s d s' : reaches s d s' -> since s s' = d.
Proof. intros [T _]. now apply since_app. Qed.

(** The [while] of lines 172-197 ends with the port empty; the chunks it
    hands to the parser are the bytes that were waiting, in order, each of 1
    to 255 bytes. *)
Lemma drainGPS_spec fuel : forall s,
  (List.length (gps_serial s) <= fuel)%nat ->
  let s' := exec (drainGPS cfg fuel) s in
  gps_serial s' = [] /\
  keeps_register s s' /\
  settingsLoaded s' = settingsLoaded s /\
  s_gpsDataStreamActive s'
    = s_gpsDataStreamActive s
      || negb (Nat.eqb (List.length (gps_serial s)) 0) /\
  exists d,
    reaches s d s' /\
    List.concat (parsed d) = gps_serial s /\
    Forall (fun c => (1 <= List.length c <= 255)%nat) (parsed d) /\
    Forall (fun c => is_parse c = true \/ is_console c = true) d.
Proof.
  induction fuel as [|fuel IH]; intros s Hlen s'.
  - assert (E : gps_serial s = []) by (destruct (gps_serial s); simpl in *; [auto|lia]).
    subst s'. simpl. unfold exec, ret. simpl. rewrite E. simpl.
    split; [reflexivity|]. split; [apply keeps_register_refl|].
    split; [reflexivity|]. split; [now rewrite orb_false_r|].
    exists []. split; [apply reaches_refl|]. repeat split; constructor.
  - destruct (gps_serial s) as [|b0 buf] eqn:E.
    + subst s'. simpl. unfold exec, bind, gps_available, gets. simpl.
      rewrite E. simpl.
      split; [assumption|]. split; [apply keeps_register_refl|].
      split; [reflexivity|]. split; [now rewrite orb_false_r|].
      exists []. split; [apply reaches_refl|]. repeat split; constructor.
    + set (n := if 256 - 1 <? Z.of_nat (List.length (b0 :: buf))
                then 256 - 1 else Z.of_nat (List.length (b0 :: buf))).
      assert (Hn : (1 <= Z.to_nat n <= 255)%nat /\ (Z.to_nat n <= List.length (b0 :: buf))%nat).
      { subst n. simpl List.length. destruct (Z.ltb_spec (256 - 1) (Z.of_nat (S (List.length buf)))); lia. }
      set (chunk := firstn (Z.to_nat n) (b0 :: buf)).
      assert (Hc : List.length chunk = Z.to_nat n).
      { subst chunk. apply firstn_length_le. lia. }
      set (d0 := (if DEBUG_RAW_GPS cfg then [debug_print (c_string chunk)] else [])
                 ++ [gps_parse chunk]).
      set (s1 := mkState true (settingsLoaded s) (g_timeCheckTimer s)
                   (g_telemetryUpdateTimer s) (g_heartbeat s) (s_errorFlags s)
                   (skipn (Z.to_nat n) (b0 :: buf))
                   (ext_call (gps_parse chunk) (ext s))
                   (trace s ++ d0)).
      assert (Hs' : s' = exec (drainGPS cfg fuel) s1).
      { subst s' s1 d0 chunk n. destruct s as [a l tc tu hb f rx e t].
        simpl in E. subst rx. cbn [drainGPS].
        unfold exec, bind, gps_available, gps_readBytes, gets, set_gps_serial,
          when, set_gpsDataStreamActive, call, output, modify, ret.
        cbn -[Z.of_nat Z.to_nat firstn skipn Z.ltb Z.sub drainGPS].
        replace (Z.of_nat (S (List.length buf)) =? 0) with false
          by (symmetry; apply Z.eqb_neq; lia).
        cbn -[Z.of_nat Z.to_nat firstn skipn Z.ltb Z.sub drainGPS].
        match goal with
        | |- context [negb (?x =? 0)] =>
            replace (x =? 0) with false
              by (symmetry; apply Z.eqb_neq; cbn [List.length] in *; lia)
        end.
        cbn -[Z.of_nat Z.to_nat firstn skipn Z.ltb Z.sub drainGPS].
        destruct (DEBUG_RAW_GPS cfg); cbn -[Z.of_nat Z.to_nat firstn skipn Z.ltb Z.sub drainGPS];
          rewrite <- ?app_assoc; reflexivity. }
      assert (R01 : reaches s d0 s1).
      { subst s1 d0. split; [reflexivity|]. cbn [ext].
        rewrite apply_calls_app.
        destruct (DEBUG_RAW_GPS cfg); reflexivity. }
      assert (Hlen1 : (List.length (gps_serial s1) <= fuel)%nat).
      { subst s1. simpl gps_serial. rewrite length_skipn. simpl List.length in *. lia. }
      destruct (IH s1 Hlen1) as (R1 & R2 & R3 & R4 & d & P1 & P2 & P3 & P4).
      rewrite <- Hs' in *.
      assert (Hp0 : parsed d0 = [chunk]).
      { subst d0. destruct (DEBUG_RAW_GPS cfg); reflexivity. }
      split; [exact R1|]. split.
      { destruct R2 as (a & b & c & e). repeat split; assumption. }
      split; [exact R3|]. split.
      { rewrite R4. subst s1. simpl. now rewrite orb_true_r. }
      exists (d0 ++ d).
      split; [eapply reaches_trans; eassumption|].
      rewrite parsed_app, Hp0. simpl.
      split.
      { rewrite P2. subst s1 chunk. simpl gps_serial. apply firstn_skipn. }
      split.
      { constructor; [lia | exact P3]. }
      apply Forall_app. split; [|exact P4].
      subst d0. destruct (DEBUG_RAW_GPS cfg); simpl;
        repeat (apply Forall_cons; [simpl; auto|]); apply Forall_nil.
Qed.

Lemma reportError_frame tag b s :
  let s' := exec (reportError cfg tags tag b) s in
  s_gpsDataStreamActive s' = s_gpsDataStreamActive s /\
  settingsLoaded s' = settingsLoaded s /\
  g_timeCheckTimer s' = g_timeCheckTimer s /\
  g_telemetryUpdateTimer s' = g_telemetryUpdateTimer s /\
  g_heartbeat s' = g_heartbeat s /\
  gps_serial s' = gps_serial s /\
  exists d,
    reaches s d s' /\
    Forall (fun c => is_console c = true \/ is_beep c = true) d.
Proof.
  unfold reportError, announceError. run_sketch.
  destruct (describeError tags tag) as [str n].
  destruct b; destruct (Z.land (s_errorFlags s) tag =? 0); simpl;
    try (repeat split; exists []; split; [apply reaches_refl | constructor]).
  - destruct (BEEP_ON_ERROR cfg); simpl; repeat split;
      eexists; (split; [split; [rewrite <- ?app_assoc; simpl; reflexivity | reflexivity]|]);
      repeat (apply Forall_cons; [simpl; auto|]); apply Forall_nil.
  - repeat split.
    eexists; (split; [split; [rewrite <- ?app_assoc; simpl; reflexivity | reflexivity]|]);
      repeat (apply Forall_cons; [simpl; auto|]); apply Forall_nil.
Qed.

Lemma loadSettings_frame s :
  let s' := exec (loadSettings cfg) s in
  s_gpsDataStreamActive s' = s_gpsDataStreamActive s /\
  settingsLoaded s' = settingsLoaded s /\
  keeps_register s s' /\
  gps_serial s' = gps_serial s /\
  exists d,
    reaches s d s' /\
    Forall (fun c => is_parse c = false /\ is_intake c = true) d.
Proof.
  destruct s as [a l tc tu hb f rx e t].
  unfold loadSettings, saveSettings, keeps_register, reaches. step.
  destruct (DEBUG_SETTINGS cfg); step;
    destruct (getDataVersion e =? GARYCOOPER_DATA_VERSION); cbn [negb]; step;
    repeat split;
    eexists; (split; [split; [rewrite <- ?app_assoc; cbn [app]; reflexivity | reflexivity]|]);
    repeat constructor.
Qed.

Lemma exec_bind {A B} (c : M A) (k : A -> M B) s :
  exec (bind c k) s = exec (k (fst (c s))) (snd (c s)).
Proof. unfold exec, bind. destruct (c s). reflexivity. Qed.

Lemma parsed_none d :
  parsed d = [] -> Forall (fun c => is_parse c = false) d.
Proof.
  induction d as [|c d IH]; intros H; [constructor|].
  destruct c; simpl in H; try discriminate; constructor; auto.
Qed.

(** Lines 164-207: the state in which line 209 is reached. *)
Lemma loopIntake_spec s :
  let s1 := atTelemetry cfg s in
  keeps_register s s1 /\
  settingsLoaded s1 = true /\
  gps_serial s1 = [] /\
  s_gpsDataStreamActive s1
    = s_gpsDataStreamActive s
      || negb (Nat.eqb (List.length (gps_serial s)) 0) /\
  exists d,
    reaches s (d ++ [comm_tick; telemetry_tick; beep_tick; door_tick]) s1 /\
    List.concat (parsed d) = gps_serial s /\
    Forall (fun c => (1 <= List.length c <= 255)%nat) (parsed d) /\
    Forall (fun c => is_intake c = true) d.
Proof.
  intros s1.
  set (sg := exec (loaded <- gets settingsLoaded ;;
                   when (negb loaded)
                     (loadSettings cfg ;; set_settingsLoaded true)) s).
  assert (G : s_gpsDataStreamActive sg = s_gpsDataStreamActive s /\
              settingsLoaded sg = true /\
              keeps_register s sg /\
              gps_serial sg = gps_serial s /\
              exists d, reaches s d sg /\
                Forall (fun c => is_parse c = false /\ is_intake c = true) d).
  { subst sg. rewrite exec_bind. unfold gets. cbn [fst snd].
    destruct (settingsLoaded s) eqn:L; cbn [negb when].
    - unfold exec, ret; cbn [snd].
      split; [reflexivity|]. split; [exact L|].
      split; [apply keeps_register_refl|]. split; [reflexivity|].
      exists []. split; [apply reaches_refl | constructor].
    - rewrite exec_bind.
      destruct (loadSettings_frame s) as (A1 & A2 & A3 & A4 & d & A5 & A6).
      unfold exec in *. unfold set_settingsLoaded, modify. cbn [fst snd].
      cbn [s_gpsDataStreamActive settingsLoaded gps_serial].
      split; [exact A1|]. split; [reflexivity|].
      split; [exact A3|]. split; [exact A4|].
      exists d. split; [exact A5 | exact A6]. }
  destruct G as (G1 & G2 & G3 & G4 & d0 & G5 & G6).
  set (sd := exec (drainGPS cfg (List.length (gps_serial sg))) sg).
  assert (E1 : s1 = exec (call comm_tick ;; call telemetry_tick ;;
                          call beep_tick ;; call door_tick) sd).
  { subst s1 sd sg. unfold atTelemetry, loopIntake.
    rewrite !exec_bind. reflexivity. }
  destruct (drainGPS_spec (List.length (gps_serial sg)) sg (le_n _))
    as (D1 & D2 & D3 & D4 & d & D5 & D6 & D7 & D8).
  fold sd in D1, D2, D3, D4, D5.
  rewrite E1. run_sketch.
  split; [eapply keeps_register_trans; eassumption|].
  split; [congruence|]. split; [exact D1|].
  split; [rewrite D4, G1, G4; reflexivity|].
  exists (d0 ++ d).
  split.
  - rewrite <- app_assoc. eapply reaches_trans; [exact G5|].
    eapply reaches_trans; [exact D5|].
    split; simpl; rewrite <- ?app_assoc; reflexivity.
  - rewrite parsed_app.
    assert (P0 : parsed d0 = []).
    { clear - G6. induction G6 as [|c l [Hc _] _ IH]; [reflexivity|].
      destruct c; simpl in *; try discriminate; assumption. }
    rewrite P0. simpl. split; [congruence|]. split; [exact D7|].
    apply Forall_app. split.
    + eapply Forall_impl; [|exact G6]. intros c [_ Hc]. exact Hc.
    + eapply Forall_impl; [|exact D8]. intros c [Hc|Hc];
        destruct c; simpl in *; congruence.
Qed.

Lemma poll_idle now x :
  CMilliTimer.is_expired (CMilliTimer.getState now x) = false ->
  CMilliTimer.poll now x = x.
Proof.
  unfold CMilliTimer.getState, CMilliTimer.poll. destruct x as [d dl st]. simpl.
  destruct st; [|discriminate]. destruct (dl <=? now); [discriminate|auto].
Qed.

(** Lines 209-232. *)
Lemma telemetryTask_spec now s :
  let s' := exec (telemetryTask now) s in
  s_errorFlags s' = s_errorFlags s /\
  s_gpsDataStreamActive s' = s_gpsDataStreamActive s /\
  settingsLoaded s' = settingsLoaded s /\
  g_timeCheckTimer s' = g_timeCheckTimer s /\
  gps_serial s' = gps_serial s /\
  (telemetryDue now s = true ->
   reaches s
     [digitalWrite_heartbeat (negb (g_heartbeat s));
      timer_start telemetryUpdateTimer TELEMETRY_UPDATE;
      transmissionStart;
      sendTerm (term_tag telemetry_tag_version);
      sendTerm TELEMETRY_VERSION_01;
      transmissionEnd;
      transmissionStart;
      sendTerm (term_tag telemetry_tag_error_flags);
      sendTerm (term_word (s_errorFlags s));
      transmissionEnd;
      sunCalc_sendTelemetry; door_sendTelemetry; light_sendTelemetry] s' /\
   g_heartbeat s' = negb (g_heartbeat s) /\
   g_telemetryUpdateTimer s'
   = CMilliTimer.mk TELEMETRY_UPDATE (now + TELEMETRY_UPDATE) CMilliTimer.running) /\
  (telemetryDue now s = false ->
   reaches s [] s' /\
   g_heartbeat s' = g_heartbeat s /\
   g_telemetryUpdateTimer s' = g_telemetryUpdateTimer s).
Proof.
  destruct s as [a l tc tu hb f rx e t].
  unfold telemetryDue, telemetryTask, sendErrors, reaches, apply_calls.
  step.
  destruct (CMilliTimer.is_expired (CMilliTimer.getState now tu)) eqn:D; step.
  - repeat split; try discriminate; try reflexivity.
    cbn [CMilliTimer.start]. rewrite <- ?app_assoc. reflexivity.
  - repeat split; try discriminate; rewrite ?app_nil_r; auto;
      now apply poll_idle.
Qed.

(** Lines 239-257, as one report made in the state [atReport]. *)
Lemma timeCheckReport_eq now s :
  exec (timeCheckReport cfg tags now) s
  = exec (set_gpsDataStreamActive false)
      (exec (reportError cfg tags (telemetry_error_GPS_no_data tags)
               (negb (s_gpsDataStreamActive s)))
            (atReport now s)).
Proof.
  destruct s as [a l tc tu hb f rx e t].
  unfold timeCheckReport, atReport, timer_start_at, set_gpsDataStreamActive,
    set_timer, timer_of, call, output, modify, gets, exec, bind.
  cbn [s_gpsDataStreamActive settingsLoaded g_timeCheckTimer
       g_telemetryUpdateTimer g_heartbeat s_errorFlags gps_serial ext trace
       fst snd].
  destruct (m_GPSLocked e); destruct a;
    cbn [s_gpsDataStreamActive settingsLoaded g_timeCheckTimer
         g_telemetryUpdateTimer g_heartbeat s_errorFlags gps_serial ext trace
         fst snd negb CMilliTimer.start];
    unfold CMilliTimer.start; rewrite <- ?app_assoc; cbn [app];
    match goal with
    | |- context [reportError ?c ?t ?g ?b ?x] =>
        destruct (reportError c t g b x) as [u p]
    end; reflexivity.
Qed.

(** Lines 259-264. *)
Lemma timeCheckSchedule_spec s :
  let s' := exec timeCheckSchedule s in
  reaches s
    (sunCalc_processGPSData
     :: (if processGPSData (ext s) then [door_checkTime; light_checkTime] else []))
    s' /\
  s_errorFlags s' = s_errorFlags s /\
  s_gpsDataStreamActive s' = s_gpsDataStreamActive s /\
  settingsLoaded s' = settingsLoaded s /\
  g_timeCheckTimer s' = g_timeCheckTimer s /\
  g_telemetryUpdateTimer s' = g_telemetryUpdateTimer s /\
  g_heartbeat s' = g_heartbeat s /\
  gps_serial s' = gps_serial s.
Proof.
  unfold timeCheckSchedule. run_sketch.
  destruct (processGPSData (ext s)); simpl; repeat split;
    rewrite <- ?app_assoc; reflexivity.
Qed.

Lemma timer_getState_fst id now s :
  fst (timer_getState id now s) = CMilliTimer.getState now (timer_of id s).
Proof. reflexivity. Qed.

Lemma timeCheckTask_due now s :
  timeCheckDue now s = true ->
  exec (timeCheckTask cfg tags now) s
  = exec timeCheckSchedule (atSchedule cfg tags now s).
Proof.
  unfold timeCheckDue, timeCheckTask, atSchedule. intros D.
  rewrite exec_bind, timer_getState_fst. cbn [timer_of].
  rewrite D. cbn [when]. rewrite exec_bind. reflexivity.
Qed.

Lemma timeCheckTask_idle now s :
  timeCheckDue now s = false ->
  let s' := exec (timeCheckTask cfg tags now) s in
  reaches s [] s' /\
  s_errorFlags s' = s_errorFlags s /\
  s_gpsDataStreamActive s' = s_gpsDataStreamActive s /\
  settingsLoaded s' = settingsLoaded s /\
  g_timeCheckTimer s' = g_timeCheckTimer s /\
  g_telemetryUpdateTimer s' = g_telemetryUpdateTimer s /\
  g_heartbeat s' = g_heartbeat s /\
  gps_serial s' = gps_serial s.
Proof.
  unfold timeCheckDue, timeCheckTask. intros D.
  rewrite exec_bind, timer_getState_fst. cbn [timer_of].
  rewrite D. cbn [when].
  destruct s as [a l tc tu hb f rx e t]. unfold reaches. step.
  cbn [g_timeCheckTimer] in D.
  rewrite (poll_idle now tc D), app_nil_r. repeat split.
Qed.

(** The state at line 259, from the state at line 237. *)
Lemma atSchedule_spec now s :
  let r := atReport now s in
  let s' := atSchedule cfg tags now s in
  s' = exec (set_gpsDataStreamActive false)
         (exec (reportError cfg tags (telemetry_error_GPS_no_data tags)
                  (negb (s_gpsDataStreamActive s))) r).
Proof.
  intros r s'. subst r s'. unfold atSchedule. rewrite timeCheckReport_eq.
  unfold timer_getState, exec, bind, gets, set_timer, modify, timer_of, ret.
  cbn [fst snd]. unfold atReport.
  cbn [s_gpsDataStreamActive settingsLoaded g_telemetryUpdateTimer g_heartbeat
       s_errorFlags gps_serial ext trace].
  reflexivity.
Qed.

Lemma loop_eq now s :
  exec (loop cfg tags now) s
  = exec (timeCheckTask cfg tags now) (atTimeCheck cfg now s).
Proof.
  unfold loop, atTimeCheck, atTelemetry. rewrite !exec_bind. reflexivity.
Qed.

(** A time check that fires, from line 237 to the end of [loop]. *)
Lemma timeCheckTask_fired now s :
  timeCheckDue now s = true ->
  let r := atReport now s in
  let q := atSchedule cfg tags now s in
  let s' := exec (timeCheckTask cfg tags now) s in
  g_timeCheckTimer s' = g_timeCheckTimer r /\
  s_gpsDataStreamActive s' = false /\
  s_errorFlags s'
  = s_errorFlags (exec (reportError cfg tags (telemetry_error_GPS_no_data tags)
                          (negb (s_gpsDataStreamActive s))) r) /\
  settingsLoaded s' = settingsLoaded s /\
  g_telemetryUpdateTimer s' = g_telemetryUpdateTimer s /\
  g_heartbeat s' = g_heartbeat s /\
  gps_serial s' = gps_serial s /\
  exists d,
    reaches r d q /\
    Forall (fun c => is_console c = true \/ is_beep c = true) d /\
    reaches q
      (sunCalc_processGPSData
       :: (if processGPSData (ext q) then [door_checkTime; light_checkTime]
           else [])) s'.
Proof.
  intros D r q s'. subst s'. rewrite (timeCheckTask_due now s D). fold q.
  destruct (timeCheckSchedule_spec q) as (S0 & S1 & S2 & S3 & S4 & S5 & S6 & S7).
  pose proof (atSchedule_spec now s) as Q. cbv zeta in Q. fold q r in Q.
  destruct (reportError_frame (telemetry_error_GPS_no_data tags)
              (negb (s_gpsDataStreamActive s)) r)
    as (F1 & F2 & F3 & F4 & F5 & F6 & d & F7 & F8).
  set (p := exec (reportError cfg tags (telemetry_error_GPS_no_data tags)
                    (negb (s_gpsDataStreamActive s))) r) in *.
  assert (Qf : g_timeCheckTimer q = g_timeCheckTimer p /\
               s_gpsDataStreamActive q = false /\
               s_errorFlags q = s_errorFlags p /\
               settingsLoaded q = settingsLoaded p /\
               g_telemetryUpdateTimer q = g_telemetryUpdateTimer p /\
               g_heartbeat q = g_heartbeat p /\
               gps_serial q = gps_serial p /\
               trace q = trace p /\ ext q = ext p).
  { rewrite Q. unfold exec, set_gpsDataStreamActive, modify. simpl.
    repeat split. }
  destruct Qf as (Q1 & Q2 & Q3 & Q4 & Q5 & Q6 & Q7 & Q8 & Q9).
  split; [congruence|]. split; [congruence|]. split; [congruence|].
  split; [rewrite S3, Q4, F2; reflexivity|].
  split; [rewrite S5, Q5, F4; reflexivity|].
  split; [rewrite S6, Q6, F5; reflexivity|].
  split; [rewrite S7, Q7, F6; reflexivity|].
  exists d. split; [|split; [exact F8 | exact S0]].
  destruct F7 as [T E]. split; congruence.
Qed.

(** From the start of a pass to line 237. *)
Lemma atTimeCheck_spec now s :
  let s2 := atTimeCheck cfg now s in
  s_errorFlags s2 = s_errorFlags s /\
  g_timeCheckTimer s2 = g_timeCheckTimer s /\
  s_gpsDataStreamActive s2
    = s_gpsDataStreamActive s
      || negb (Nat.eqb (List.length (gps_serial s)) 0) /\
  gps_serial s2 = [] /\
  settingsLoaded s2 = true /\
  exists d d2,
    reaches s (d ++ [comm_tick; telemetry_tick; beep_tick; door_tick] ++ d2) s2 /\
    List.concat (parsed d) = gps_serial s /\
    Forall (fun c => (1 <= List.length c <= 255)%nat) (parsed d) /\
    Forall (fun c => is_intake c = true) d /\
    Forall (fun c => is_telemetry c = true) d2.
Proof.
  intros s2. subst s2. unfold atTimeCheck.
  destruct (loopIntake_spec s)
    as ((K1 & K2 & K3 & K4) & L1 & L2 & L3 & d & R1 & P1 & P2 & P3).
  set (s1 := atTelemetry cfg s) in *.
  destruct (telemetryTask_spec now s1) as (T1 & T2 & T3 & T4 & T5 & Hd & Hi).
  split; [congruence|]. split; [congruence|]. split; [congruence|].
  split; [congruence|]. split; [congruence|].
  destruct (telemetryDue now s1) eqn:D.
  - destruct (Hd eq_refl) as (R2 & _).
    exists d. eexists. split.
    + rewrite app_assoc. eapply reaches_trans; [exact R1 | exact R2].
    + split; [exact P1|]. split; [exact P2|]. split; [exact P3|].
      repeat constructor.
  - destruct (Hi eq_refl) as (R2 & _).
    exists d, []. split.
    + rewrite app_assoc. eapply reaches_trans; [exact R1 | exact R2].
    + split; [exact P1|]. split; [exact P2|]. split; [exact P3|]. constructor.
Qed.

(** From line 237 to the end of the pass. *)
Lemma timeCheckTask_calls now s :
  let s' := exec (timeCheckTask cfg tags now) s in
  exists d3,
    reaches s d3 s' /\
    Forall (fun c => is_parse c = false) d3 /\
    forall c, c = door_checkTime \/ c = light_checkTime ->
      (In c d3 <-> timeCheckDue now s = true /\
                   processGPSData (ext (atSchedule cfg tags now s)) = true).
Proof.
  intros s'. subst s'. destruct (timeCheckDue now s) eqn:D.
  - destruct (timeCheckTask_fired now s D)
      as (_ & _ & _ & _ & _ & _ & _ & d & R1 & F & R2).
    set (q := atSchedule cfg tags now s) in *.
    set (r := atReport now s) in *.
    assert (R0 : reaches s (timer_start timeCheckTimer (CMilliTimer.duration (g_timeCheckTimer r))
                            :: (if s_gpsDataStreamActive s then [] else [gps_clear])) r).
    { subst r. unfold atReport, reaches. cbn [trace ext g_timeCheckTimer CMilliTimer.duration].
      split; [reflexivity|]. destruct (s_gpsDataStreamActive s); reflexivity. }
    eexists. split; [exact (reaches_trans _ _ _ _ _ R0 (reaches_trans _ _ _ _ _ R1 R2))|].
    assert (Fd : Forall (fun c => is_parse c = false) d /\
                 forall c, c = door_checkTime \/ c = light_checkTime -> ~ In c d).
    { split.
      - eapply Forall_impl; [|exact F]. intros c [H|H]; destruct c; simpl in *; congruence.
      - intros c Hc Hin. rewrite Forall_forall in F. specialize (F c Hin).
        destruct Hc; subst c; simpl in F; intuition congruence. }
    destruct Fd as [Fd1 Fd2].
    split.
    + constructor; [reflexivity|]. apply Forall_app. split.
      { destruct (s_gpsDataStreamActive s); repeat constructor. }
      apply Forall_app. split; [exact Fd1|].
      destruct (processGPSData (ext q)); repeat constructor.
    + intros c Hc. split.
      * intros Hin. split; [reflexivity|].
        destruct Hin as [Hin|Hin]; [destruct Hc; subst c; discriminate|].
        apply in_app_or in Hin. destruct Hin as [Hin|Hin].
        { destruct (s_gpsDataStreamActive s); simpl in Hin;
            destruct Hc; subst c; intuition discriminate. }
        apply in_app_or in Hin. destruct Hin as [Hin|Hin]; [elim (Fd2 c Hc Hin)|].
        destruct (processGPSData (ext q)); [reflexivity|].
        simpl in Hin. destruct Hc; subst c; intuition discriminate.
      * intros [_ V]. rewrite V. right.
        apply in_or_app. right. apply in_or_app. right.
        destruct Hc; subst c; simpl; auto.
  - destruct (timeCheckTask_idle now s D) as (R & _).
    exists []. split; [exact R|]. split; [constructor|].
    intros c _. split; [intros [] | intros [H _]; discriminate H].
Qed.


(** The restart made by a pass in which the time check fires. *)
Lemma rearm_at now s :
  let s2 := atTimeCheck cfg now s in
  let s' := exec (loop cfg tags now) s in
  let period := if m_GPSLocked (ext s2) then 60000 else 5000 in
  timeCheckDue now s2 = true ->
  g_timeCheckTimer s' = CMilliTimer.mk period (now + period) CMilliTimer.running /\
  exists rest, since s2 s' = timer_start timeCheckTimer period :: rest.
Proof.
  intros s2 s' period D. subst s'. rewrite loop_eq. fold s2.
  destruct (timeCheckTask_fired now s2 D)
    as (T & _ & _ & _ & _ & _ & _ & d & R1 & _ & R2).
  split.
  - rewrite T. unfold atReport. cbn [g_timeCheckTimer]. subst period.
    destruct (m_GPSLocked (ext s2)); reflexivity.
  - pose proof (reaches_trans _ _ _ _ _ R1 R2) as [R _].
    unfold atReport in R. cbn [trace] in R.
    rewrite <- app_assoc in R. simpl in R.
    eexists. apply since_app. rewrite R. subst period.
    destruct (m_GPSLocked (ext s2)); reflexivity.
Qed.

(** C3.  When the time-check timer is found expired (line 237), the first
    thing done is to restart it: for 60000 ms if the fix read at that moment
    is locked, for 5000 ms if it is not; the timer keeps that period to the
    end of the pass.  The period depends on nothing but the fix as it is in
    that pass: whatever was chosen at this firing, at a later firing that
    finds the fix locked the timer is restarted for 60000 ms at once. *)
Theorem time_check_rearm now s :
  let s2 := atTimeCheck cfg now s in
  let s' := exec (loop cfg tags now) s in
  let period := if m_GPSLocked (ext s2) then 60000 else 5000 in
  timeCheckDue now s2 = true ->
  (g_timeCheckTimer s' = CMilliTimer.mk period (now + period) CMilliTimer.running /\
   exists rest, since s2 s' = timer_start timeCheckTimer period :: rest) /\
  (forall between next,
     let t := run cfg tags between s' in
     let t2 := atTimeCheck cfg next t in
     timeCheckDue next t2 = true ->
     m_GPSLocked (ext t2) = true ->
     g_timeCheckTimer (exec (loop cfg tags next) t)
     = CMilliTimer.mk 60000 (next + 60000) CMilliTimer.running /\
     exists rest,
       since t2 (exec (loop cfg tags next) t)
       = timer_start timeCheckTimer 60000 :: rest).
Proof.
  intros s2 s' period D. split; [exact (rearm_at now s D)|].
  intros between next t t2 Dt Lt.
  pose proof (rearm_at next t Dt) as H. cbv zeta in H. fold t2 in H.
  rewrite Lt in H. exact H.
Qed.

Lemma parsed_no_parse d :
  Forall (fun c => is_parse c = false) d -> parsed d = [].
Proof.
  induction 1 as [|c l Hc _ IH]; [reflexivity|].
  destruct c; simpl in *; try discriminate; assumption.
Qed.

(** The calls of a whole pass. *)
Lemma loop_calls now s :
  let s2 := atTimeCheck cfg now s in
  let s' := exec (loop cfg tags now) s in
  exists d d2 d3,
    since s s' = d ++ [comm_tick; telemetry_tick; beep_tick; door_tick] ++ d2 ++ d3 /\
    reaches s (d ++ [comm_tick; telemetry_tick; beep_tick; door_tick] ++ d2 ++ d3) s' /\
    List.concat (parsed d) = gps_serial s /\
    Forall (fun c => (1 <= List.length c <= 255)%nat) (parsed d) /\
    Forall (fun c => is_intake c = true) d /\
    Forall (fun c => is_telemetry c = true) d2 /\
    reaches s2 d3 s' /\
    Forall (fun c => is_parse c = false) d3 /\
    forall c, c = door_checkTime \/ c = light_checkTime ->
      (In c d3 <-> timeCheckDue now s2 = true /\
                   processGPSData (ext (atSchedule cfg tags now s2)) = true).
Proof.
  intros s2 s'. subst s'. rewrite loop_eq. fold s2.
  destruct (atTimeCheck_spec now s)
    as (_ & _ & _ & _ & _ & d & d2 & R & P1 & P2 & P3 & P4).
  fold s2 in R.
  destruct (timeCheckTask_calls now s2) as (d3 & R3 & F3 & H3).
  exists d, d2, d3.
  assert (RR : reaches s
                 (d ++ [comm_tick; telemetry_tick; beep_tick; door_tick] ++ d2 ++ d3)
                 (exec (timeCheckTask cfg tags now) s2)).
  { replace (d ++ [comm_tick; telemetry_tick; beep_tick; door_tick] ++ d2 ++ d3)
      with ((d ++ [comm_tick; telemetry_tick; beep_tick; door_tick] ++ d2) ++ d3)
      by (rewrite <- !app_assoc; reflexivity).
    eapply reaches_trans; eassumption. }
  split; [exact (reaches_since _ _ _ RR)|].
  repeat (split; [assumption|]). assumption.
Qed.

Lemma loop_gps_serial now s : gps_serial (exec (loop cfg tags now) s) = [].
Proof.
  rewrite loop_eq.
  destruct (atTimeCheck_spec now s) as (_ & _ & _ & G & _).
  destruct (timeCheckDue now (atTimeCheck cfg now s)) eqn:D.
  - destruct (timeCheckTask_fired now _ D) as (_ & _ & _ & _ & _ & _ & S & _).
    congruence.
  - destruct (timeCheckTask_idle now _ D) as (_ & _ & _ & _ & _ & _ & _ & S).
    congruence.
Qed.

(** C7.  In a pass of [loop], the door's and the light's [checkTime] are
    called iff the time-check timer is found expired and the sun calculator,
    given the fix as it is when line 260 is reached, reports a valid time.
    When it reports an invalid time, the only call after the report is the
    one on the sun calculator: neither schedule is looked at.  Either way the
    pass ends and the next pass runs as every pass does, down to the four
    ticks. *)
Theorem schedules_follow_valid_time now s :
  let s2 := atTimeCheck cfg now s in
  let s' := exec (loop cfg tags now) s in
  let valid := processGPSData (ext (atSchedule cfg tags now s2)) in
  (In door_checkTime (since s s')
   <-> timeCheckDue now s2 = true /\ valid = true) /\
  (In light_checkTime (since s s')
   <-> timeCheckDue now s2 = true /\ valid = true) /\
  (timeCheckDue now s2 = true -> valid = false ->
   since (atSchedule cfg tags now s2) s' = [sunCalc_processGPSData]) /\
  (forall i, exists d rest,
     since s' (iteration cfg tags i s')
     = d ++ [comm_tick; telemetry_tick; beep_tick; door_tick] ++ rest).
Proof.
  intros s2 s' valid.
  destruct (loop_calls now s)
    as (d & d2 & d3 & E & _ & _ & _ & P3 & P4 & _ & _ & H3).
  fold s' s2 in E, H3. fold valid in H3.
  assert (Hin : forall c, c = door_checkTime \/ c = light_checkTime ->
                  (In c (since s s') <-> In c d3)).
  { intros c Hc. rewrite E. split.
    - intros Hin. apply in_app_or in Hin. destruct Hin as [Hin|Hin].
      { rewrite Forall_forall in P3. specialize (P3 c Hin).
        destruct Hc; subst c; discriminate. }
      apply in_app_or in Hin. destruct Hin as [Hin|Hin].
      { simpl in Hin. destruct Hc; subst c; intuition discriminate. }
      apply in_app_or in Hin. destruct Hin as [Hin|Hin]; [|exact Hin].
      rewrite Forall_forall in P4. specialize (P4 c Hin).
      destruct Hc; subst c; discriminate.
    - intros Hin. apply in_or_app. right. apply in_or_app. right.
      apply in_or_app. now right. }
  split; [rewrite (Hin door_checkTime (or_introl eq_refl)); apply H3; auto|].
  split; [rewrite (Hin light_checkTime (or_intror eq_refl)); apply H3; auto|].
  split.
  - intros D V. subst s'. rewrite loop_eq. fold s2.
    destruct (timeCheckTask_fired now s2 D)
      as (_ & _ & _ & _ & _ & _ & _ & dr & _ & _ & R2).
    fold valid in R2. rewrite V in R2. exact (reaches_since _ _ _ R2).
  - intros i. unfold iteration.
    destruct (loop_calls (clock i) (receive (arrived i) s'))
      as (e1 & e2 & e3 & Ei & _).
    exists e1, (e2 ++ e3). exact Ei.
Qed.

Lemma flagSet_ext k (a b : State) :
  s_errorFlags a = s_errorFlags b -> flagSet tags k a = flagSet tags k b.
Proof. unfold flagSet. now intros ->. Qed.

(** One pass, as the error register and the fresh-input flag see it. *)
Lemma loop_flags now s :
  OneBitPerKind tags ->
  let fresh := s_gpsDataStreamActive s
               || negb (Nat.eqb (List.length (gps_serial s)) 0) in
  let due := timeCheckDue now s in
  let s' := exec (loop cfg tags now) s in
  timeCheckDue now (atTimeCheck cfg now s) = due /\
  gps_serial s' = [] /\
  s_gpsDataStreamActive s' = (if due then false else fresh) /\
  (forall k, flagSet tags k s'
             = if due && ErrorKind_eqb k GPS_no_data then negb fresh
               else flagSet tags k s) /\
  (due = false -> s_errorFlags s' = s_errorFlags s).
Proof.
  intros HT fresh due s'. subst s'. rewrite loop_eq.
  destruct (atTimeCheck_spec now s) as (A1 & A2 & A3 & A4 & _).
  set (s2 := atTimeCheck cfg now s) in *.
  assert (Ed : timeCheckDue now s2 = due).
  { subst due. unfold timeCheckDue. now rewrite A2. }
  split; [exact Ed|].
  destruct due eqn:D.
  - destruct (timeCheckTask_fired now s2 Ed)
      as (_ & B2 & B3 & _ & _ & _ & B7 & _).
    split; [congruence|]. split; [exact B2|]. split; [|discriminate].
    intros k. rewrite (flagSet_ext k _ _ B3).
    change (telemetry_error_GPS_no_data tags) with (tagOf tags GPS_no_data).
    rewrite reportError_flag by assumption. cbn [andb].
    rewrite A3. fold fresh.
    destruct (ErrorKind_eqb k GPS_no_data); [reflexivity|].
    apply flagSet_ext. unfold atReport. cbn [s_errorFlags]. exact A1.
  - destruct (timeCheckTask_idle now s2 Ed)
      as (_ & C1 & C2 & _ & _ & _ & _ & C7).
    split; [congruence|]. split; [rewrite C2, A3; reflexivity|]. split.
    + intros k. cbn [andb]. apply flagSet_ext. congruence.
    + intros _. congruence.
Qed.

Lemma receive_spec bytes s :
  let s0 := receive bytes s in
  s_gpsDataStreamActive s0 = s_gpsDataStreamActive s /\
  gps_serial s0 = gps_serial s ++ bytes /\
  s_errorFlags s0 = s_errorFlags s /\
  (forall now, timeCheckDue now s0 = timeCheckDue now s) /\
  reaches s [] s0.
Proof.
  unfold receive, reaches. cbn. rewrite app_nil_r. repeat split.
Qed.

Lemma silent_pass i s :
  OneBitPerKind tags ->
  arrived i = [] -> gps_serial s = [] -> s_gpsDataStreamActive s = false ->
  let s' := iteration cfg tags i s in
  gps_serial s' = [] /\
  s_gpsDataStreamActive s' = false /\
  flagSet tags GPS_no_data s'
  = flagSet tags GPS_no_data s || timeCheckDue (clock i) s.
Proof.
  intros HT Ha Hrx Hact s'. subst s'. unfold iteration. rewrite Ha.
  destruct (receive_spec [] s) as (R1 & R2 & R3 & R4 & _).
  destruct (loop_flags (clock i) (receive [] s) HT)
    as (_ & L1 & L2 & L3 & _).
  specialize (L3 GPS_no_data).
  rewrite (flagSet_ext GPS_no_data _ _ R3) in L3.
  rewrite R1, R2, (R4 (clock i)), Hrx, Hact in L2, L3.
  cbn in L2, L3.
  split; [exact L1|]. split.
  - rewrite L2. now destruct (timeCheckDue (clock i) s).
  - rewrite L3.
    destruct (timeCheckDue (clock i) s); cbn;
      [now rewrite orb_true_r | now rewrite orb_false_r].
Qed.

Lemma fed_pass i s :
  OneBitPerKind tags ->
  arrived i <> [] ->
  let s' := iteration cfg tags i s in
  flagSet tags GPS_no_data s'
  = flagSet tags GPS_no_data s && negb (timeCheckDue (clock i) s).
Proof.
  intros HT Ha s'. subst s'. unfold iteration.
  destruct (receive_spec (arrived i) s) as (R1 & R2 & R3 & R4 & _).
  destruct (loop_flags (clock i) (receive (arrived i) s) HT)
    as (_ & _ & _ & L3 & _).
  specialize (L3 GPS_no_data).
  rewrite (flagSet_ext GPS_no_data _ _ R3) in L3.
  rewrite R1, R2, (R4 (clock i)) in L3.
  assert (N : Nat.eqb (List.length (gps_serial s ++ arrived i)) 0 = false).
  { rewrite length_app. destruct (arrived i); [congruence|]. simpl.
    apply Nat.eqb_neq. lia. }
  rewrite N, orb_true_r in L3. cbn in L3. rewrite L3.
  destruct (timeCheckDue (clock i) s); cbn;
    [now rewrite andb_false_r | now rewrite andb_true_r].
Qed.

Lemma silent_run inputs : forall s,
  OneBitPerKind tags ->
  Forall (fun i => arrived i = []) inputs ->
  gps_serial s = [] -> s_gpsDataStreamActive s = false ->
  flagSet tags GPS_no_data (run cfg tags inputs s)
  = flagSet tags GPS_no_data s || negb (Nat.eqb (firings cfg tags inputs s) 0) /\
  edges cfg tags true GPS_no_data inputs s
  = (if flagSet tags GPS_no_data s then 0
     else Nat.min 1 (firings cfg tags inputs s))%nat /\
  edges cfg tags false GPS_no_data inputs s = O.
Proof.
  induction inputs as [|i rest IH]; intros s HT Hs Hrx Hact.
  - cbn. rewrite orb_false_r. repeat split. now destruct (flagSet tags GPS_no_data s).
  - inversion Hs as [|? ? Hi Hrest]; subst.
    destruct (silent_pass i s HT Hi Hrx Hact) as (P1 & P2 & P3).
    destruct (IH (iteration cfg tags i s) HT Hrest P1 P2) as (I1 & I2 & I3).
    cbn [run fold_left firings edges]. fold (run cfg tags rest (iteration cfg tags i s)).
    rewrite I1, I2, I3, P3.
    destruct (flagSet tags GPS_no_data s); destruct (timeCheckDue (clock i) s);
      cbn; repeat split; try reflexivity;
      destruct (firings cfg tags rest (iteration cfg tags i s)); reflexivity.
Qed.

Lemma fed_run inputs : forall s,
  OneBitPerKind tags ->
  Forall (fun i => arrived i <> []) inputs ->
  flagSet tags GPS_no_data (run cfg tags inputs s)
  = flagSet tags GPS_no_data s && Nat.eqb (firings cfg tags inputs s) 0 /\
  edges cfg tags false GPS_no_data inputs s
  = (if flagSet tags GPS_no_data s
     then Nat.min 1 (firings cfg tags inputs s) else 0)%nat /\
  edges cfg tags true GPS_no_data inputs s = O.
Proof.
  induction inputs as [|i rest IH]; intros s HT Hs.
  - cbn. rewrite andb_true_r. repeat split. now destruct (flagSet tags GPS_no_data s).
  - inversion Hs as [|? ? Hi Hrest]; subst.
    pose proof (fed_pass i s HT Hi) as P3. cbv zeta in P3.
    destruct (IH (iteration cfg tags i s) HT Hrest) as (I1 & I2 & I3).
    cbn [run fold_left firings edges]. fold (run cfg tags rest (iteration cfg tags i s)).
    rewrite I1, I2, I3, P3.
    destruct (flagSet tags GPS_no_data s); destruct (timeCheckDue (clock i) s);
      cbn; repeat split; try reflexivity;
      destruct (firings cfg tags rest (iteration cfg tags i s)); reflexivity.
Qed.

(** C6.  The no-data error is reported by the time check and by nothing else
    in [loop].  In a pass in which the time check fires, the flag of
    GPS_no_data is set if no byte was taken off the GPS port since the
    previous firing (the fresh-input flag is still clear and the port is
    empty in this pass) and cleared otherwise, and the fresh-input flag is
    reset; in a pass in which it does not fire, the error word is left as it
    is and the fresh-input flag is kept, raised if bytes were waiting.  So
    over passes in which no byte arrives, starting after a firing with the
    error clear, the error becomes set exactly once (at the first firing) and
    never becomes clear; and over passes in which bytes arrive, starting with
    the error set, it becomes clear exactly once (at the first firing) and
    never becomes set. *)
Theorem no_data_error_follows_time_check :
  OneBitPerKind tags ->
  (forall now s,
     let fresh := s_gpsDataStreamActive s
                  || negb (Nat.eqb (List.length (gps_serial s)) 0) in
     let s' := exec (loop cfg tags now) s in
     (timeCheckDue now (atTimeCheck cfg now s) = true ->
      flagSet tags GPS_no_data s' = negb fresh /\
      (forall k, k <> GPS_no_data -> flagSet tags k s' = flagSet tags k s) /\
      s_gpsDataStreamActive s' = false) /\
     (timeCheckDue now (atTimeCheck cfg now s) = false ->
      s_errorFlags s' = s_errorFlags s /\
      s_gpsDataStreamActive s' = fresh)) /\
  (forall inputs s,
     Forall (fun i => arrived i = []) inputs ->
     gps_serial s = [] -> s_gpsDataStreamActive s = false ->
     flagSet tags GPS_no_data s = false ->
     (0 < firings cfg tags inputs s)%nat ->
     edges cfg tags true GPS_no_data inputs s = 1%nat /\
     edges cfg tags false GPS_no_data inputs s = 0%nat /\
     flagSet tags GPS_no_data (run cfg tags inputs s) = true) /\
  (forall inputs s,
     Forall (fun i => arrived i <> []) inputs ->
     flagSet tags GPS_no_data s = true ->
     (0 < firings cfg tags inputs s)%nat ->
     edges cfg tags false GPS_no_data inputs s = 1%nat /\
     edges cfg tags true GPS_no_data inputs s = 0%nat /\
     flagSet tags GPS_no_data (run cfg tags inputs s) = false).
Proof.
  intros HT. split; [|split].
  - intros now s fresh s'.
    destruct (loop_flags now s HT) as (E & _ & L2 & L3 & L4).
    fold fresh s' in L2, L3, L4. rewrite E. split.
    + intros D. rewrite D in L2, L3. split; [|split].
      * rewrite L3. reflexivity.
      * intros k Hk. rewrite L3. cbn [andb].
        destruct (ErrorKind_eqb k GPS_no_data) eqn:Ek; [|reflexivity].
        apply ErrorKind_eqb_eq in Ek. contradiction.
      * exact L2.
    + intros D. rewrite D in L2. split; [exact (L4 D) | exact L2].
  - intros inputs s Hs Hrx Hact Hf Hn.
    destruct (silent_run inputs s HT Hs Hrx Hact) as (I1 & I2 & I3).
    rewrite Hf in I1, I2. cbn [orb] in I1.
    destruct (firings cfg tags inputs s) as [|n]; [lia|].
    split; [rewrite I2; now destruct n|]. split; [exact I3|exact I1].
  - intros inputs s Hs Hf Hn.
    destruct (fed_run inputs s HT Hs) as (I1 & I2 & I3).
    rewrite Hf in I1, I2. cbn [andb] in I1.
    destruct (firings cfg tags inputs s) as [|n]; [lia|].
    split; [rewrite I2; now destruct n|]. split; [exact I3|exact I1].
Qed.

Lemma apply_calls_unlocked d : forall e,
  FixLockedOnlyByParser W ->
  Forall (fun c => is_parse c = false) d ->
  m_GPSLocked e = false -> m_GPSLocked (apply_calls d e) = false.
Proof.
  induction d as [|c d IH]; intros e HW Hd He; [exact He|].
  inversion Hd as [|? ? Hc Hrest]; subst.
  change (apply_calls (c :: d) e)
    with (apply_calls d (if is_output c then e else ext_call c e)).
  apply IH; try assumption.
  destruct (is_output c); [exact He|]. now apply (proj2 HW).
Qed.

Lemma intake_no_parse d :
  List.concat (parsed d) = [] ->
  Forall (fun c => (1 <= List.length c <= 255)%nat) (parsed d) ->
  Forall (fun c => is_parse c = false) d.
Proof.
  intros Hc Hl. apply parsed_none.
  destruct (parsed d) as [|c l]; [reflexivity|].
  inversion Hl as [|? ? H1 _]; subst.
  destruct c; simpl in *; [lia | discriminate].
Qed.

Lemma telemetry_no_parse d :
  Forall (fun c => is_telemetry c = true) d ->
  Forall (fun c => is_parse c = false) d.
Proof.
  intros H. eapply Forall_impl; [|exact H].
  intros c Hc. destruct c; simpl in *; congruence.
Qed.

(** A pass in which no byte is waiting leaves an unlocked fix unlocked, at
    line 237 and at its end. *)
Lemma silent_pass_keeps_unlocked now s :
  FixLockedOnlyByParser W ->
  gps_serial s = [] -> m_GPSLocked (ext s) = false ->
  m_GPSLocked (ext (atTimeCheck cfg now s)) = false /\
  m_GPSLocked (ext (exec (loop cfg tags now) s)) = false.
Proof.
  intros HW Hrx Hl.
  destruct (loop_calls now s)
    as (d & d2 & d3 & _ & _ & P1 & P2 & _ & P4 & R3 & F3 & _).
  destruct (atTimeCheck_spec now s)
    as (_ & _ & _ & _ & _ & d' & d2' & R & P1' & P2' & _ & P4').
  rewrite Hrx in P1, P1'.
  assert (U2 : m_GPSLocked (ext (atTimeCheck cfg now s)) = false).
  { destruct R as [_ E]. rewrite E. apply apply_calls_unlocked; try assumption.
    apply Forall_app. split; [now apply intake_no_parse|].
    apply Forall_app. split; [repeat constructor | now apply telemetry_no_parse]. }
  split; [exact U2|].
  destruct R3 as [_ E3]. rewrite E3. now apply apply_calls_unlocked.
Qed.

(** A time check that finds no data leaves the fix unlocked. *)
Lemma no_data_check_unlocks now s :
  FixLockedOnlyByParser W ->
  timeCheckDue now s = true -> s_gpsDataStreamActive s = false ->
  m_GPSLocked (ext (exec (timeCheckTask cfg tags now) s)) = false.
Proof.
  intros HW D A.
  destruct (timeCheckTask_fired now s D)
    as (_ & _ & _ & _ & _ & _ & _ & d & R1 & F & R2).
  pose proof (reaches_trans _ _ _ _ _ R1 R2) as [_ E]. rewrite E.
  apply apply_calls_unlocked; try assumption.
  - apply Forall_app. split.
    + eapply Forall_impl; [|exact F].
      intros c [H|H]; destruct c; simpl in *; congruence.
    + destruct (processGPSData (ext (atSchedule cfg tags now s)));
        repeat constructor.
  - unfold atReport. cbn [ext]. rewrite A. apply (proj1 HW).
Qed.

Lemma silent_run_keeps_unlocked inputs : forall s,
  FixLockedOnlyByParser W ->
  Forall (fun i => arrived i = []) inputs ->
  gps_serial s = [] -> m_GPSLocked (ext s) = false ->
  gps_serial (run cfg tags inputs s) = [] /\
  m_GPSLocked (ext (run cfg tags inputs s)) = false.
Proof.
  induction inputs as [|i rest IH]; intros s HW Hs Hrx Hl; [split; assumption|].
  inversion Hs as [|? ? Hi Hrest]; subst.
  cbn [run fold_left]. fold (run cfg tags rest (iteration cfg tags i s)).
  apply IH; try assumption.
  - unfold iteration. apply loop_gps_serial.
  - unfold iteration. rewrite Hi.
    destruct (receive_spec [] s) as (_ & R2 & _ & _ & [_ R5]).
    assert (Rx0 : gps_serial (receive [] s) = [])
      by (rewrite R2, Hrx; reflexivity).
    assert (U0 : m_GPSLocked (ext (receive [] s)) = false)
      by (rewrite R5; exact Hl).
    exact (proj2 (silent_pass_keeps_unlocked (clock i) _ HW Rx0 U0)).
Qed.

(** C9, as amended.  When the time check finds that no byte was taken off
    the port since its last firing, it restarts the timer with the lock as it
    still is, then calls [clear()] on the fix, and only then reports the
    no-data error: the report is made in a state whose last call is the
    clear.  With a fix that [clear()] unlocks and that only parsing can lock,
    the fix is unlocked when the pass ends, and at every later firing before
    which no byte has arrived the timer is restarted for the short period of
    5000 ms.  (Bytes that arrive in between may lock the fix again, and the
    restart then uses the long period.) *)
Theorem clear_before_no_data_report now s :
  FixLockedOnlyByParser W ->
  let s2 := atTimeCheck cfg now s in
  let s' := exec (loop cfg tags now) s in
  let period := if m_GPSLocked (ext s2) then 60000 else 5000 in
  timeCheckDue now s2 = true ->
  s_gpsDataStreamActive s2 = false ->
  trace (atReport now s2)
  = trace s2 ++ [timer_start timeCheckTimer period; gps_clear] /\
  ext (atReport now s2) = ext_call gps_clear (ext s2) /\
  atSchedule cfg tags now s2
  = exec (set_gpsDataStreamActive false)
      (exec (reportError cfg tags (telemetry_error_GPS_no_data tags) true)
            (atReport now s2)) /\
  m_GPSLocked (ext s') = false /\
  (forall between j,
     Forall (fun i => arrived i = []) (between ++ [j]) ->
     let sj := run cfg tags between s' in
     timeCheckDue (clock j) sj = true ->
     g_timeCheckTimer (iteration cfg tags j sj)
     = CMilliTimer.mk 5000 (clock j + 5000) CMilliTimer.running).
Proof.
  intros HW s2 s' period D A.
  split; [|split; [|split; [|split]]].
  - unfold atReport. cbn [trace]. rewrite A. subst period.
    destruct (m_GPSLocked (ext s2)); reflexivity.
  - unfold atReport. cbn [ext]. now rewrite A.
  - pose proof (atSchedule_spec now s2) as Q. cbv zeta in Q.
    rewrite A in Q. exact Q.
  - subst s'. rewrite loop_eq. now apply no_data_check_unlocks.
  - intros between j Hs sj Dj.
    apply Forall_app in Hs. destruct Hs as [Hb Hj].
    inversion Hj as [|? ? Haj _]; subst.
    assert (U : m_GPSLocked (ext s') = false)
      by (subst s'; rewrite loop_eq; now apply no_data_check_unlocks).
    destruct (silent_run_keeps_unlocked between s' HW Hb
                (loop_gps_serial now s) U) as (Rx & Uj).
    fold sj in Rx, Uj.
    unfold iteration. rewrite Haj.
    destruct (receive_spec [] sj) as (_ & R2 & _ & R4 & [_ R5]).
    set (s0 := receive [] sj) in *.
    assert (Rx0 : gps_serial s0 = []) by (rewrite R2, Rx; reflexivity).
    assert (U0 : m_GPSLocked (ext s0) = false) by (rewrite R5; exact Uj).
    destruct (silent_pass_keeps_unlocked (clock j) s0 HW Rx0 U0) as (U2 & _).
    rewrite loop_eq.
    destruct (atTimeCheck_spec (clock j) s0) as (_ & T & _).
    assert (D2 : timeCheckDue (clock j) (atTimeCheck cfg (clock j) s0) = true).
    { unfold timeCheckDue. rewrite T. rewrite <- Dj. symmetry. apply R4. }
    destruct (timeCheckTask_fired (clock j) _ D2) as (E & _).
    rewrite E. unfold atReport. cbn [g_timeCheckTimer]. rewrite U2.
    reflexivity.
Qed.

End Loop.

Lemma Sim_fix_locked_only_by_parser : FixLockedOnlyByParser Sim.
Proof.
  split.
  - intros e. reflexivity.
  - intros c e Hc He. destruct c; try discriminate Hc; try exact He; reflexivity.
Qed.

(** C9, as stated, fails: the lock is dropped at 5000 ms, a sentence with
    status A is waiting at 65000 ms, and the restart at that firing is for
    60000 ms. *)
Lemma rearm_is_long_when_lock_is_back :
  ~ short_rearm_after_silence (W := Sim) as_given sim_tags.
Proof.
  intros H.
  specialize (H {| clock := 5000; arrived := [] |} (sim_start 1 true) []
                sim_lock_back eq_refl eq_refl eq_refl eq_refl eq_refl eq_refl).
  vm_compute in H. discriminate H.
Qed.

Example lock_lost_and_back :
  m_GPSLocked (ext (sim_start 1 true)) = true /\
  g_timeCheckTimer sim_lock_lost
  = CMilliTimer.mk 60000 65000 CMilliTimer.running /\
  m_GPSLocked (ext sim_lock_lost) = false /\
  g_timeCheckTimer (iteration as_given sim_tags sim_lock_back sim_lock_lost)
  = CMilliTimer.mk 60000 125000 CMilliTimer.running.
Proof. vm_compute. repeat split. Qed.

Lemma clear_before_no_data_report_witness :
  FixLockedOnlyByParser Sim /\
  timeCheckDue 5000 (atTimeCheck as_given 5000 (sim_start 1 true)) = true /\
  s_gpsDataStreamActive (atTimeCheck as_given 5000 (sim_start 1 true)) = false /\
  m_GPSLocked (ext (sim_start 1 true)) = true /\
  m_GPSLocked (ext (exec (loop as_given sim_tags 5000) (sim_start 1 true))) = false.
Proof.
  split; [exact Sim_fix_locked_only_by_parser|].
  split; [reflexivity|]. split; [reflexivity|]. split; [reflexivity|].
  destruct (clear_before_no_data_report (W := Sim) as_given sim_tags 5000
              (sim_start 1 true) Sim_fix_locked_only_by_parser eq_refl eq_refl)
    as (_ & _ & _ & H & _).
  exact H.
Defined.

Lemma no_data_error_follows_time_check_witness :
  OneBitPerKind sim_tags /\
  edges as_given sim_tags true GPS_no_data silence (sim_start 1 false) = 1%nat /\
  edges as_given sim_tags false GPS_no_data resumed
    (run as_given sim_tags silence (sim_start 1 false)) = 1%nat.
Proof.
  split; [exact sim_tags_one_bit|].
  destruct (no_data_error_follows_time_check (W := Sim) as_given sim_tags
              sim_tags_one_bit) as (_ & Hsilent & Hfed).
  split.
  - refine (proj1 (Hsilent silence (sim_start 1 false) _ eq_refl eq_refl eq_refl _)).
    + repeat constructor.
    + vm_compute. lia.
  - refine (proj1 (Hfed resumed (run as_given sim_tags silence (sim_start 1 false))
                     _ _ _)).
    + repeat constructor; discriminate.
    + vm_compute. reflexivity.
    + vm_compute. lia.
Defined.

(** C5, as stated, fails: with 300 bytes waiting, one pass takes all 300. *)
Lemma drain_takes_more_than_one_buffer :
  ~ one_buffer_per_pass (W := Sim) as_given sim_tags.
Proof.
  intros H. specialize (H 100 sim_backlog). vm_compute in H. lia.
Qed.

Example drain_of_300_bytes :
  map (@List.length byte)
    (parsed (since sim_backlog (exec (loop as_given sim_tags 100) sim_backlog)))
  = [255; 45]%nat.
Proof. vm_compute. reflexivity. Qed.

Lemma schedules_follow_valid_time_witness :
  timeCheckDue 10000 (atTimeCheck as_given 10000 sim_locked_since) = true /\
  In door_checkTime
    (since sim_locked_since (exec (loop as_given sim_tags 10000) sim_locked_since)).
Proof.
  split; [reflexivity|].
  destruct (schedules_follow_valid_time (W := Sim) as_given sim_tags 10000
              sim_locked_since) as (H & _).
  apply H. split; reflexivity.
Defined.

Lemma loadSettings_default_write_pass_witness :
  getDataVersion (ext (sim_start 7 false)) <> GARYCOOPER_DATA_VERSION /\
  quiet (since (sim_start 7 false)
           (exec (loadSettings as_given) (sim_start 7 false)))
  = [save_updateHeader 1; save_rewind; door_saveSettings true;
     light_saveSettings true; save_rewind; door_loadSettings;
     light_loadSettings].
Proof.
  assert (H : getDataVersion (ext (sim_start 7 false)) <> GARYCOOPER_DATA_VERSION)
    by (vm_compute; discriminate).
  split; [exact H|].
  destruct (loadSettings_default_write_pass (W := Sim) as_given
              (sim_start 7 false)) as (_ & Hm & _).
  exact (Hm H).
Defined.


Lemma time_check_rearm_witness :
  g_timeCheckTimer sim_unlocked_firing
  = CMilliTimer.mk 5000 10000 CMilliTimer.running /\
  timeCheckDue 10000 (atTimeCheck as_given 10000 sim_locked_since) = true /\
  g_timeCheckTimer (exec (loop as_given sim_tags 10000) sim_locked_since)
  = CMilliTimer.mk 60000 70000 CMilliTimer.running.
Proof.
  split; [reflexivity|]. split; [reflexivity|].
  destruct (time_check_rearm (W := Sim) as_given sim_tags 10000
              sim_locked_since eq_refl) as ((H & _) & _).
  exact H.
Defined.

(** ** The error word *)

Section ErrorWord.

Context {W : Collaborators}.
Variable cfg : BuildConfig.
Variable tags : TelemetryTags.

Ltac step :=
  cbv beta iota zeta delta
    [exec bind gets when call output modify ret fst snd
     set_gpsDataStreamActive set_settingsLoaded set_timer set_heartbeat
     set_errorFlags set_gps_serial timer_of timer_getState timer_start_at
     s_gpsDataStreamActive settingsLoaded g_timeCheckTimer
     g_telemetryUpdateTimer g_heartbeat s_errorFlags gps_serial ext trace].

Lemma uint16_is_uint16 z : is_uint16 (uint16 z).
Proof. unfold is_uint16, uint16. apply Z.mod_pos_bound. lia. Qed.

Lemma wordAfter_is_uint16 tag b f : is_uint16 f -> is_uint16 (wordAfter tag b f).
Proof.
  intros H. unfold wordAfter.
  destruct b; destruct (Z.land f tag =? 0); cbn [negb];
    auto using uint16_is_uint16.
Qed.

(** What [reportError] leaves, for any tag: the word, and on the console the
    announcement or nothing. *)
Lemma reportError_word tag b s :
  let s' := exec (reportError cfg tags tag b) s in
  s_errorFlags s' = wordAfter tag b (s_errorFlags s) /\
  console (since s s')
  = if announces tag b (s_errorFlags s)
    then [debug_println "";
          debug_print (if b then "*** SET ERROR: " else "*** CLEAR ERROR: ");
          debug_println (fst (describeError tags tag));
          debug_println ""]
    else [].
Proof.
  destruct s as [a l tc tu hb f rx e t].
  unfold reportError, announceError, wordAfter, announces, since.
  destruct (describeError tags tag) as [str n]. step. cbn [fst].
  destruct b; destruct (Z.land f tag =? 0); cbn [negb]; step;
    try (split; [reflexivity|]; rewrite <- (app_nil_r t) at 2;
         rewrite skipn_length_app; reflexivity).
  - destruct (BEEP_ON_ERROR cfg); step;
      (split; [reflexivity|]); rewrite <- ?app_assoc; cbn [app];
      rewrite skipn_length_app; reflexivity.
  - split; [reflexivity|]. rewrite <- ?app_assoc; cbn [app].
    rewrite skipn_length_app. reflexivity.
Qed.

Lemma high_bits_clear f i : is_uint16 f -> 16 <= i -> Z.testbit f i = false.
Proof.
  intros [H0 H1] Hi. rewrite <- (Z.mod_small f (2 ^ 16)) by (change (2 ^ 16) with 65536; lia).
  apply Z.mod_pow2_bits_high. lia.
Qed.

Lemma wordAfter_testbit j b f i :
  is_uint16 f -> 0 <= j < 16 -> 0 <= i ->
  Z.testbit (wordAfter (2 ^ j) b f) i = if i =? j then b else Z.testbit f i.
Proof.
  intros Hf Hj Hi.
  destruct (Z.ltb_spec i 16) as [Hlt|Hge].
  - unfold wordAfter. rewrite land_pow2_zero by lia.
    destruct (Z.eqb_spec i j) as [->|Hne].
    + destruct b; destruct (Z.testbit f j) eqn:Fj; cbn [negb];
        rewrite ?testbit_uint16_set, ?testbit_uint16_clear by lia;
        rewrite ?Z.eqb_refl, ?Fj; reflexivity.
    + assert (E : (j =? i) = false) by (apply Z.eqb_neq; lia).
      destruct b; destruct (Z.testbit f j) eqn:Fj; cbn [negb];
        rewrite ?testbit_uint16_set, ?testbit_uint16_clear by lia;
        rewrite ?E; cbn [orb negb]; rewrite ?andb_true_r; reflexivity.
  - assert (Hne : (i =? j) = false) by (apply Z.eqb_neq; lia).
    rewrite Hne. rewrite (high_bits_clear f i) by (assumption || lia).
    apply high_bits_clear; [|lia]. now apply wordAfter_is_uint16.
Qed.

Lemma reportError_silent tag b s :
  announces tag b (s_errorFlags s) = false ->
  reportError cfg tags tag b s = (tt, s).
Proof.
  unfold announces, reportError, bind, gets. cbn [fst snd].
  destruct b; intros H; [rewrite H | apply negb_false_iff in H; rewrite H];
    reflexivity.
Qed.

Lemma low_bit_of tag :
  tag mod 65536 <> 0 -> exists i, 0 <= i < 16 /\ Z.testbit tag i = true.
Proof.
  intros H. pose proof (Z.mod_pos_bound tag 65536 eq_refl) as B.
  set (m := tag mod 65536) in *.
  exists (Z.log2 m). assert (0 < m) by lia.
  assert (L : Z.log2 m < 16) by (apply Z.log2_lt_pow2; [lia | change (2 ^ 16) with 65536; lia]).
  pose proof (Z.log2_nonneg m). split; [lia|].
  rewrite <- (Z.mod_pow2_bits_low tag 16) by lia.
  change (2 ^ 16) with 65536. fold m. apply Z.bit_log2. lia.
Qed.

Lemma no_low_bit tag i :
  tag mod 65536 = 0 -> i < 16 -> Z.testbit tag i = false.
Proof.
  intros H Hi. rewrite <- (Z.mod_pow2_bits_low tag 16) by lia.
  change (2 ^ 16) with 65536. rewrite H. apply Z.bits_0.
Qed.

Lemma set_then_found f tag :
  tag mod 65536 <> 0 -> Z.land (uint16 (Z.lor f tag)) tag <> 0.
Proof.
  intros H E. destruct (low_bit_of tag H) as (i & Hi & Ti).
  assert (B : Z.testbit (Z.land (uint16 (Z.lor f tag)) tag) i = true).
  { rewrite Z.land_spec, Ti. unfold uint16. change 65536 with (2 ^ 16).
    rewrite Z.mod_pow2_bits_low by lia. rewrite Z.lor_spec, Ti.
    now rewrite orb_true_r. }
  rewrite E, Z.bits_0 in B. discriminate B.
Qed.

Lemma cleared_then_gone f tag :
  Z.land (uint16 (Z.land f (Z.lnot tag))) tag = 0.
Proof.
  apply Z.bits_inj'. intros i Hi.
  rewrite Z.land_spec, Z.bits_0. unfold uint16. change 65536 with (2 ^ 16).
  rewrite Z.testbit_mod_pow2 by lia. rewrite Z.land_spec, Z.lnot_spec by lia.
  destruct (Z.testbit tag i); cbn; now rewrite ?andb_false_r.
Qed.

(** X1.  A report made twice in a row is made once, for any tag, be it of
    one bit or of several: the second call finds what the first left and
    returns the state untouched.  For an assertion the tag must have a bit in
    the 16-bit word; for a clear every tag will do. *)
Theorem report_twice_is_report_once tag b s :
  (b = true -> tag mod 65536 <> 0) ->
  exec (reportError cfg tags tag b) (exec (reportError cfg tags tag b) s)
  = exec (reportError cfg tags tag b) s.
Proof.
  intros H. set (s1 := exec (reportError cfg tags tag b) s).
  unfold exec at 1. rewrite reportError_silent; [reflexivity|].
  subst s1. rewrite (proj1 (reportError_word tag b s)).
  unfold announces, wordAfter. destruct b.
  - destruct (Z.land (s_errorFlags s) tag =? 0) eqn:E; cbn [negb].
    + apply Z.eqb_neq. apply set_then_found. now apply H.
    + exact E.
  - destruct (Z.land (s_errorFlags s) tag =? 0) eqn:E; cbn [negb].
    + now rewrite E.
    + rewrite cleared_then_gone. reflexivity.
Qed.

(** X2.  A tag with no bit in the 16-bit word is never recorded: asserting
    it leaves the word as it is and writes the announcement every time, and
    clearing it does nothing. *)
Theorem tag_outside_word_never_sticks tag s :
  tag mod 65536 = 0 -> is_uint16 (s_errorFlags s) ->
  let s' := exec (reportError cfg tags tag true) s in
  s_errorFlags s' = s_errorFlags s /\
  console (since s s')
  = [debug_println ""; debug_print "*** SET ERROR: ";
     debug_println (fst (describeError tags tag)); debug_println ""] /\
  exec (reportError cfg tags tag false) s = s.
Proof.
  intros H Hf s'.
  assert (L : Z.land (s_errorFlags s) tag = 0).
  { apply Z.bits_inj'. intros i Hi. rewrite Z.land_spec, Z.bits_0.
    destruct (Z.ltb_spec i 16).
    - rewrite (no_low_bit tag i) by assumption. apply andb_false_r.
    - now rewrite (high_bits_clear _ i Hf). }
  destruct (reportError_word tag true s) as (Hw & Hc). fold s' in Hw, Hc.
  unfold wordAfter, announces in Hw, Hc. rewrite L in Hw, Hc. cbn in Hw, Hc.
  split; [|split; [exact Hc|]].
  - rewrite Hw. apply Z.bits_inj'. intros i Hi. unfold uint16.
    change 65536 with (2 ^ 16). rewrite Z.testbit_mod_pow2 by lia.
    rewrite Z.lor_spec. destruct (Z.ltb_spec i 16).
    + rewrite (no_low_bit tag i) by assumption. now rewrite orb_false_r.
    + now rewrite (high_bits_clear _ i Hf).
  - unfold exec. rewrite reportError_silent; [reflexivity|].
    unfold announces. now rewrite L.
Qed.

Lemma reportAll_bits calls : forall s,
  OneBitPerKind tags -> is_uint16 (s_errorFlags s) ->
  is_uint16 (s_errorFlags (exec (reportAll cfg tags calls) s)) /\
  forall i, 0 <= i -> (forall k, tagOf tags k <> 2 ^ i) ->
    Z.testbit (s_errorFlags (exec (reportAll cfg tags calls) s)) i
    = Z.testbit (s_errorFlags s) i.
Proof.
  induction calls as [|[k b] rest IH]; intros s HT Hf.
  - split; [exact Hf | reflexivity].
  - cbn [reportAll]. rewrite exec_bind.
    set (s1 := snd (reportError cfg tags (tagOf tags k) b s)).
    assert (E1 : s_errorFlags s1 = wordAfter (tagOf tags k) b (s_errorFlags s))
      by apply (proj1 (reportError_word (tagOf tags k) b s)).
    assert (H1 : is_uint16 (s_errorFlags s1))
      by (rewrite E1; now apply wordAfter_is_uint16).
    destruct (IH s1 HT H1) as (I1 & I2). split; [exact I1|].
    intros i Hi Hs. rewrite (I2 i Hi Hs), E1.
    destruct (one_bit tags k HT) as (j & Hj & Ej). rewrite Ej.
    rewrite wordAfter_testbit by (assumption || lia).
    destruct (Z.eqb_spec i j) as [->|]; [|reflexivity].
    elim (Hs k Ej).
Qed.

Lemma kind_of_bit i :
  (exists k, tagOf tags k = 2 ^ i) \/ (forall k, tagOf tags k <> 2 ^ i).
Proof.
  destruct (Z.eq_dec (tagOf tags GPS_no_data) (2 ^ i)); [left; eauto|].
  destruct (Z.eq_dec (tagOf tags GPS_bad_data) (2 ^ i)); [left; eauto|].
  destruct (Z.eq_dec (tagOf tags GPS_not_locked) (2 ^ i)); [left; eauto|].
  destruct (Z.eq_dec (tagOf tags suncalc_invalid_time) (2 ^ i)); [left; eauto|].
  destruct (Z.eq_dec (tagOf tags no_door_motor) (2 ^ i)); [left; eauto|].
  destruct (Z.eq_dec (tagOf tags door_motor_unknown_state) (2 ^ i)); [left; eauto|].
  destruct (Z.eq_dec (tagOf tags door_motor_unknown_not_responding) (2 ^ i));
    [left; eauto|].
  right. intros k. destruct k; assumption.
Qed.

(** X3.  From power-on, after any sequence of reports, the bits of the error
    word that belong to no error kind are clear, and the word is 0 exactly
    when no kind was last reported as set. *)
Theorem word_is_the_standing_errors calls e :
  OneBitPerKind tags ->
  let word := s_errorFlags (exec (reportAll cfg tags calls) (power_on e)) in
  (forall i, 0 <= i -> (forall k, tagOf tags k <> 2 ^ i) ->
     Z.testbit word i = false) /\
  (word = 0 <-> forall k, lastReport k false calls = false).
Proof.
  intros HT word.
  assert (H0 : is_uint16 (s_errorFlags (power_on e))) by (cbn; unfold is_uint16; lia).
  destruct (reportAll_bits calls (power_on e) HT H0) as (_ & Hb).
  assert (Hl : forall k, flagSet tags k (exec (reportAll cfg tags calls) (power_on e))
                         = lastReport k false calls).
  { intros k. rewrite (reportAll_last cfg tags k calls HT). reflexivity. }
  assert (Stray : forall i, 0 <= i -> (forall k, tagOf tags k <> 2 ^ i) ->
                    Z.testbit word i = false).
  { intros i Hi Hs. subst word. rewrite (Hb i Hi Hs). cbn. apply Z.bits_0. }
  split; [exact Stray|]. split.
  - intros Hz k. rewrite <- Hl. unfold flagSet. fold word. rewrite Hz. reflexivity.
  - intros Hn. apply Z.bits_inj'. intros i Hi. rewrite Z.bits_0.
    destruct (kind_of_bit i) as [[k Ek]|Hs]; [|now apply Stray].
    specialize (Hn k). rewrite <- Hl in Hn.
    rewrite (flagSet_testbit tags k _ i Hi Ek) in Hn. exact Hn.
Qed.

(** X4.  Reports of two different kinds may be made in either order: the
    error word that results is the same. *)
Theorem reports_of_different_kinds_commute k b k' b' s :
  OneBitPerKind tags -> is_uint16 (s_errorFlags s) -> k <> k' ->
  s_errorFlags (exec (reportError cfg tags (tagOf tags k) b ;;
                      reportError cfg tags (tagOf tags k') b') s)
  = s_errorFlags (exec (reportError cfg tags (tagOf tags k') b' ;;
                        reportError cfg tags (tagOf tags k) b) s).
Proof.
  intros HT Hf Hk.
  destruct (one_bit tags k HT) as (j & Hj & Ej).
  destruct (one_bit tags k' HT) as (j' & Hj' & Ej').
  assert (Hjj : j <> j').
  { intros ->. apply Hk. apply (proj2 HT). congruence. }
  rewrite !exec_bind.
  change (snd (reportError cfg tags ?t ?x s)) with (exec (reportError cfg tags t x) s).
  rewrite !(proj1 (reportError_word _ _ _)).
  rewrite Ej, Ej'.
  apply Z.bits_inj'. intros i Hi.
  rewrite !wordAfter_testbit by (assumption || lia || (apply wordAfter_is_uint16; assumption)).
  destruct (Z.eqb_spec i j); destruct (Z.eqb_spec i j'); try reflexivity. lia.
Qed.

End ErrorWord.

(** ** The passes of loop, call by call *)

Section Passes.

Context {W : Collaborators}.
Variable cfg : BuildConfig.
Variable tags : TelemetryTags.

Ltac step :=
  cbv beta iota zeta delta
    [exec bind gets when call output modify ret fst snd
     set_gpsDataStreamActive set_settingsLoaded set_timer set_heartbeat
     set_errorFlags set_gps_serial timer_of timer_getState timer_start_at
     s_gpsDataStreamActive settingsLoaded g_timeCheckTimer
     g_telemetryUpdateTimer g_heartbeat s_errorFlags gps_serial ext trace].

(** One pass of the [while] of lines 172-197 that finds bytes. *)
Lemma drainGPS_step fuel s :
  gps_serial s <> [] ->
  let chunk := firstn 255 (gps_serial s) in
  let s1 := mkState true (settingsLoaded s) (g_timeCheckTimer s)
              (g_telemetryUpdateTimer s) (g_heartbeat s) (s_errorFlags s)
              (skipn 255 (gps_serial s))
              (ext_call (gps_parse chunk) (ext s))
              (trace s
               ++ (if DEBUG_RAW_GPS cfg then [debug_print (c_string chunk)] else [])
               ++ [gps_parse chunk]) in
  exec (drainGPS cfg (S fuel)) s = exec (drainGPS cfg fuel) s1.
Proof.
  intros Hne chunk s1. subst chunk s1.
  destruct s as [a l tc tu hb f rx e t]. cbn [gps_serial] in *.
  destruct rx as [|b0 buf]; [congruence|].
  set (n := if 256 - 1 <? Z.of_nat (S (List.length buf))
            then 256 - 1 else Z.of_nat (S (List.length buf))).
  assert (Hn : (1 <= Z.to_nat n <= 255)%nat /\ (Z.to_nat n <= List.length (b0 :: buf))%nat).
  { subst n. simpl List.length.
    destruct (Z.ltb_spec (256 - 1) (Z.of_nat (S (List.length buf)))); lia. }
  assert (Hf : firstn (Z.to_nat n) (b0 :: buf) = firstn 255 (b0 :: buf)).
  { subst n. destruct (Z.ltb_spec (256 - 1) (Z.of_nat (S (List.length buf)))).
    - reflexivity.
    - rewrite !firstn_all2; [reflexivity | simpl List.length; lia | simpl List.length; lia]. }
  assert (Hs : skipn (Z.to_nat n) (b0 :: buf) = skipn 255 (b0 :: buf)).
  { subst n. destruct (Z.ltb_spec (256 - 1) (Z.of_nat (S (List.length buf)))).
    - reflexivity.
    - rewrite !skipn_all2; [reflexivity | simpl List.length; lia | simpl List.length; lia]. }
  assert (Hc : List.length (firstn (Z.to_nat n) (b0 :: buf)) = Z.to_nat n)
    by (apply firstn_length_le; lia).
  rewrite <- Hf, <- Hs.
  cbn [drainGPS].
  unfold exec, bind, gps_available, gps_readBytes, gets, set_gps_serial,
    when, set_gpsDataStreamActive, call, output, modify, ret.
  cbn -[Z.of_nat Z.to_nat firstn skipn Z.ltb Z.sub drainGPS].
  replace (Z.of_nat (S (List.length buf)) =? 0) with false
    by (symmetry; apply Z.eqb_neq; lia).
  cbn -[Z.of_nat Z.to_nat firstn skipn Z.ltb Z.sub drainGPS].
  fold n.
  replace (Z.of_nat (List.length (firstn (Z.to_nat n) (b0 :: buf))) =? 0)
    with false by (symmetry; apply Z.eqb_neq; lia).
  cbn -[Z.of_nat Z.to_nat firstn skipn Z.ltb Z.sub drainGPS].
  destruct (DEBUG_RAW_GPS cfg);
    cbn -[Z.of_nat Z.to_nat firstn skipn Z.ltb Z.sub drainGPS];
    rewrite <- ?app_assoc; reflexivity.
Qed.

Lemma drainGPS_empty fuel s :
  gps_serial s = [] -> exec (drainGPS cfg fuel) s = s.
Proof.
  intros E. destruct fuel; [reflexivity|].
  cbn [drainGPS]. unfold exec, bind, gps_available, gets. cbn [fst snd].
  rewrite E. reflexivity.
Qed.

Lemma chunksOf_more fuel : forall l extra,
  (List.length l <= fuel)%nat -> chunksOf (fuel + extra) l = chunksOf fuel l.
Proof.
  induction fuel as [|fuel IH]; intros l extra H.
  - destruct l; [|simpl in H; lia]. now destruct extra.
  - destruct l as [|b l]; [reflexivity|].
    cbn [Nat.add chunksOf]. f_equal. apply IH.
    rewrite length_skipn. simpl in *. lia.
Qed.

(** The drain, call by call. *)
Lemma drainGPS_exact fuel : forall s,
  (List.length (gps_serial s) <= fuel)%nat ->
  let s' := exec (drainGPS cfg fuel) s in
  reaches s (drainCalls cfg (gps_serial s)) s' /\
  gps_serial s' = [].
Proof.
  induction fuel as [|fuel IH]; intros s Hlen s'.
  - assert (E : gps_serial s = [])
      by (destruct (gps_serial s); simpl in *; [auto|lia]).
    subst s'. unfold drainCalls. rewrite E. cbn. split; [apply reaches_refl | exact E].
  - destruct (gps_serial s) as [|b0 buf] eqn:E.
    + subst s'. rewrite drainGPS_empty by assumption.
      split; [apply reaches_refl | exact E].
    + assert (Hne : gps_serial s <> []) by (rewrite E; discriminate).
      pose proof (drainGPS_step fuel s Hne) as St. cbv zeta in St.
      subst s'. rewrite St. clear St.
      match goal with
      | |- context [exec (drainGPS cfg fuel) ?x] => set (s1 := x)
      end.
      assert (Hlen1 : (List.length (gps_serial s1) <= fuel)%nat).
      { subst s1. cbn [gps_serial]. rewrite length_skipn, E.
        simpl List.length in *. lia. }
      destruct (IH s1 Hlen1) as (R & G). split; [|exact G].
      assert (R0 : reaches s
                     ((if DEBUG_RAW_GPS cfg
                       then [debug_print (c_string (firstn 255 (gps_serial s)))]
                       else []) ++ [gps_parse (firstn 255 (gps_serial s))]) s1).
      { subst s1. split; [reflexivity|]. cbn [ext]. rewrite apply_calls_app.
        destruct (DEBUG_RAW_GPS cfg); reflexivity. }
      pose proof (reaches_trans _ _ _ _ _ R0 R) as RR.
      replace (drainCalls cfg (b0 :: buf))
        with (((if DEBUG_RAW_GPS cfg
                then [debug_print (c_string (firstn 255 (gps_serial s)))]
                else []) ++ [gps_parse (firstn 255 (gps_serial s))])
              ++ drainCalls cfg (gps_serial s1)); [exact RR|].
      unfold drainCalls. rewrite E. cbn [List.length chunksOf flat_map].
      f_equal. f_equal. subst s1. cbn [gps_serial]. rewrite E.
      set (rest := skipn 255 (b0 :: buf)).
      assert (Hr : (List.length rest <= List.length buf)%nat).
      { subst rest. rewrite length_skipn. simpl. lia. }
      replace (List.length buf) with (List.length rest + (List.length buf - List.length rest))%nat by lia.
      symmetry. apply chunksOf_more. lia.
Qed.

Lemma loadSettings_reach s :
  exists d,
    reaches s d (exec (loadSettings cfg) s) /\
    quiet d
    = (if getDataVersion (ext s) =? GARYCOOPER_DATA_VERSION then []
       else [save_updateHeader GARYCOOPER_DATA_VERSION; save_rewind;
             door_saveSettings true; light_saveSettings true])
      ++ [save_rewind; door_loadSettings; light_loadSettings] /\
    Forall (fun c => is_store c = true \/ is_console c = true) d.
Proof.
  destruct (loadSettings_frame cfg s) as (_ & _ & _ & _ & d & R & F).
  exists d. split; [exact R|]. split.
  - rewrite <- (reaches_since _ _ _ R). apply loadSettings_calls.
  - eapply Forall_impl; [|exact F].
    intros c [Hp Hi]. destruct c; simpl in *; auto; discriminate.
Qed.

(** Lines 164-207, call by call. *)
Lemma loopIntake_shape s :
  let s1 := atTelemetry cfg s in
  exists dl,
    reaches s (dl ++ drainCalls cfg (gps_serial s)
               ++ [comm_tick; telemetry_tick; beep_tick; door_tick]) s1 /\
    (settingsLoaded s = true -> dl = []) /\
    (settingsLoaded s = false -> reaches s dl (exec (loadSettings cfg) s)).
Proof.
  intros s1.
  set (sg := exec (loaded <- gets settingsLoaded ;;
                   when (negb loaded)
                     (loadSettings cfg ;; set_settingsLoaded true)) s).
  assert (G : gps_serial sg = gps_serial s /\
              exists dl, reaches s dl sg /\
                (settingsLoaded s = true -> dl = []) /\
                (settingsLoaded s = false ->
                 reaches s dl (exec (loadSettings cfg) s))).
  { subst sg. rewrite exec_bind. unfold gets. cbn [fst snd].
    destruct (settingsLoaded s) eqn:L; cbn [negb when].
    - unfold exec, ret; cbn [snd]. split; [reflexivity|].
      exists []. split; [apply reaches_refl|]. split; [reflexivity | discriminate].
    - rewrite exec_bind.
      destruct (loadSettings_frame cfg s) as (_ & _ & _ & A4 & d & A5 & _).
      unfold exec in *. unfold set_settingsLoaded, modify. cbn [fst snd gps_serial].
      split; [exact A4|].
      exists d. split; [exact A5|]. split; [discriminate | intros _; exact A5]. }
  destruct G as (G4 & dl & G5 & G6 & G7).
  set (sd := exec (drainGPS cfg (List.length (gps_serial sg))) sg).
  assert (E1 : s1 = exec (call comm_tick ;; call telemetry_tick ;;
                          call beep_tick ;; call door_tick) sd).
  { subst s1 sd sg. unfold atTelemetry, loopIntake.
    rewrite !exec_bind. reflexivity. }
  destruct (drainGPS_exact (List.length (gps_serial sg)) sg (le_n _)) as (D & _).
  fold sd in D. rewrite G4 in D.
  exists dl. split; [|split; assumption].
  eapply reaches_trans; [exact G5|].
  eapply reaches_trans; [exact D|].
  rewrite E1. destruct sd as [a l tc tu hb f rx e t]. unfold reaches. step.
  split; rewrite <- ?app_assoc; reflexivity.
Qed.

(** Lines 237-265, call by call. *)
Lemma timeCheckTask_shape now s :
  exists d3,
    reaches s d3 (exec (timeCheckTask cfg tags now) s) /\
    Forall (fun c => is_timecheck c = true) d3 /\
    (timeCheckDue now s = false -> d3 = []).
Proof.
  destruct (timeCheckDue now s) eqn:D.
  - destruct (timeCheckTask_fired cfg tags now s D)
      as (_ & _ & _ & _ & _ & _ & _ & d & R1 & F & R2).
    set (r := atReport now s) in *.
    assert (R0 : reaches s (timer_start timeCheckTimer (CMilliTimer.duration (g_timeCheckTimer r))
                            :: (if s_gpsDataStreamActive s then [] else [gps_clear])) r).
    { subst r. unfold atReport, reaches.
      cbn [trace ext g_timeCheckTimer CMilliTimer.duration].
      split; [reflexivity|]. destruct (s_gpsDataStreamActive s); reflexivity. }
    eexists. split;
      [exact (reaches_trans _ _ _ _ _ R0 (reaches_trans _ _ _ _ _ R1 R2))|].
    split; [|discriminate].
    constructor; [reflexivity|]. apply Forall_app. split.
    { destruct (s_gpsDataStreamActive s); repeat constructor. }
    apply Forall_app. split.
    + eapply Forall_impl; [|exact F].
      intros c [H|H]; destruct c; simpl in *; congruence.
    + destruct (processGPSData (ext (atSchedule cfg tags now s)));
        repeat constructor.
  - destruct (timeCheckTask_idle cfg tags now s D) as (R & _).
    exists []. split; [exact R|]. split; [constructor | reflexivity].
Qed.

(** A whole pass, call by call. *)
Lemma pass_shape now s :
  let s' := exec (loop cfg tags now) s in
  exists dl d3,
    reaches s
      (dl ++ drainCalls cfg (gps_serial s)
       ++ [comm_tick; telemetry_tick; beep_tick; door_tick]
       ++ (if telemetryDue now s
           then telemetryCalls (g_heartbeat s) (s_errorFlags s) else [])
       ++ d3) s' /\
    (settingsLoaded s = true -> dl = []) /\
    (settingsLoaded s = false -> reaches s dl (exec (loadSettings cfg) s)) /\
    Forall (fun c => is_timecheck c = true) d3 /\
    (timeCheckDue now s = false -> d3 = []) /\
    settingsLoaded s' = true /\
    g_heartbeat s' = xorb (g_heartbeat s) (telemetryDue now s) /\
    g_telemetryUpdateTimer s'
    = (if telemetryDue now s
       then CMilliTimer.mk TELEMETRY_UPDATE (now + TELEMETRY_UPDATE) CMilliTimer.running
       else g_telemetryUpdateTimer s) /\
    (timeCheckDue now s = false -> g_timeCheckTimer s' = g_timeCheckTimer s).
Proof.
  intros s'. subst s'. rewrite loop_eq. unfold atTimeCheck.
  destruct (loopIntake_spec cfg s) as ((K1 & K2 & K3 & K4) & L1 & _).
  destruct (loopIntake_shape s) as (dl & R1 & H1 & H2).
  set (s1 := atTelemetry cfg s) in *.
  destruct (telemetryTask_spec now s1) as (T1 & T2 & T3 & T4 & T5 & Hd & Hi).
  set (s2 := exec (telemetryTask now) s1) in *.
  destruct (timeCheckTask_shape now s2) as (d3 & R3 & F3 & I3).
  assert (Dt : telemetryDue now s1 = telemetryDue now s)
    by (unfold telemetryDue; now rewrite K3).
  assert (Dc : timeCheckDue now s2 = timeCheckDue now s)
    by (unfold timeCheckDue; now rewrite T4, K2).
  rewrite Dc in I3.
  assert (Tail : settingsLoaded (exec (timeCheckTask cfg tags now) s2) = settingsLoaded s2 /\
                 g_heartbeat (exec (timeCheckTask cfg tags now) s2) = g_heartbeat s2 /\
                 g_telemetryUpdateTimer (exec (timeCheckTask cfg tags now) s2)
                 = g_telemetryUpdateTimer s2 /\
                 (timeCheckDue now s = false ->
                  g_timeCheckTimer (exec (timeCheckTask cfg tags now) s2)
                  = g_timeCheckTimer s2)).
  { destruct (timeCheckDue now s2) eqn:D.
    - destruct (timeCheckTask_fired cfg tags now s2 D)
        as (_ & _ & _ & B4 & B5 & B6 & _).
      split; [exact B4|]. split; [exact B6|]. split; [exact B5|].
      rewrite <- Dc. discriminate.
    - destruct (timeCheckTask_idle cfg tags now s2 D)
        as (_ & _ & _ & C4 & C5 & C6 & C7 & _).
      split; [exact C4|]. split; [exact C7|]. split; [exact C6|].
      intros _; exact C5. }
  destruct Tail as (E1 & E2 & E3 & E4).
  exists dl, d3.
  assert (R2 : reaches s1 (if telemetryDue now s
                           then telemetryCalls (g_heartbeat s) (s_errorFlags s)
                           else []) s2 /\
               g_heartbeat s2 = xorb (g_heartbeat s) (telemetryDue now s) /\
               g_telemetryUpdateTimer s2
               = (if telemetryDue now s
                  then CMilliTimer.mk TELEMETRY_UPDATE (now + TELEMETRY_UPDATE)
                         CMilliTimer.running
                  else g_telemetryUpdateTimer s)).
  { rewrite <- Dt. destruct (telemetryDue now s1) eqn:D.
    - destruct (Hd eq_refl) as (R & Hb & Ht). rewrite <- K4, <- K1.
      split; [exact R|]. split; [rewrite Hb; now destruct (g_heartbeat s1) | exact Ht].
    - destruct (Hi eq_refl) as (R & Hb & Ht).
      split; [exact R|]. split; [rewrite Hb, K4; now destruct (g_heartbeat s) | congruence]. }
  destruct R2 as (R2 & Hb & Ht).
  split.
  { replace (dl ++ drainCalls cfg (gps_serial s)
             ++ [comm_tick; telemetry_tick; beep_tick; door_tick]
             ++ (if telemetryDue now s
                 then telemetryCalls (g_heartbeat s) (s_errorFlags s) else [])
             ++ d3)
      with (((dl ++ drainCalls cfg (gps_serial s)
              ++ [comm_tick; telemetry_tick; beep_tick; door_tick])
             ++ (if telemetryDue now s
                 then telemetryCalls (g_heartbeat s) (s_errorFlags s) else []))
            ++ d3)
      by (rewrite <- !app_assoc; reflexivity).
    eapply reaches_trans; [|exact R3].
    eapply reaches_trans; [exact R1 | exact R2]. }
  split; [exact H1|]. split; [exact H2|]. split; [exact F3|].
  split; [exact I3|]. split; [congruence|]. split; [congruence|].
  split; [congruence|]. intros D. rewrite (E4 D). congruence.
Qed.

Lemma reaches_inj s d d' s' : reaches s d s' -> reaches s d' s' -> d = d'.
Proof.
  intros [T _] [T' _]. rewrite T in T'. now apply app_inv_head in T'.
Qed.

(** A pass with what arrived before it, call by call. *)
Lemma iteration_shape i s :
  let s' := iteration cfg tags i s in
  exists dl d3,
    reaches s
      (dl ++ drainCalls cfg (gps_serial s ++ arrived i)
       ++ ticks
       ++ (if telemetryDue (clock i) s
           then telemetryCalls (g_heartbeat s) (s_errorFlags s) else [])
       ++ d3) s' /\
    (settingsLoaded s = true -> dl = []) /\
    (settingsLoaded s = false ->
     quiet dl
     = (if getDataVersion (ext s) =? GARYCOOPER_DATA_VERSION then []
        else [save_updateHeader GARYCOOPER_DATA_VERSION; save_rewind;
              door_saveSettings true; light_saveSettings true])
       ++ [save_rewind; door_loadSettings; light_loadSettings] /\
     Forall (fun c => is_store c = true \/ is_console c = true) dl) /\
    Forall (fun c => is_timecheck c = true) d3 /\
    (timeCheckDue (clock i) s = false -> d3 = []) /\
    settingsLoaded s' = true /\
    g_heartbeat s' = xorb (g_heartbeat s) (telemetryDue (clock i) s).
Proof.
  intros s'. subst s'. unfold iteration.
  set (s0 := receive (arrived i) s).
  destruct (pass_shape (clock i) s0)
    as (dl & d3 & R & H1 & H2 & F3 & I3 & L & Hb & _).
  exists dl, d3.
  assert (R0 : reaches s [] s0)
    by (unfold s0, receive, reaches; cbn; now rewrite app_nil_r).
  split; [exact (reaches_trans _ _ _ _ _ R0 R)|].
  split; [exact H1|]. split.
  { intros U. destruct (loadSettings_reach s0) as (d & Rd & Q & F).
    rewrite (reaches_inj _ _ _ _ (H2 U) Rd). split; [exact Q | exact F]. }
  split; [exact F3|]. split; [exact I3|]. split; [exact L | exact Hb].
Qed.

Lemma iteration_reaches i s : exists d, reaches s d (iteration cfg tags i s).
Proof.
  destruct (iteration_shape i s) as (dl & d3 & R & _). eexists; exact R.
Qed.

Lemma run_reaches inputs : forall s, exists d, reaches s d (run cfg tags inputs s).
Proof.
  induction inputs as [|i rest IH]; intros s.
  - exists []. apply reaches_refl.
  - destruct (iteration_reaches i s) as (d1 & R1).
    destruct (IH (iteration cfg tags i s)) as (d2 & R2).
    exists (d1 ++ d2). exact (reaches_trans _ _ _ _ _ R1 R2).
Qed.

Lemma run_since_cons i rest s :
  since s (run cfg tags (i :: rest) s)
  = since s (iteration cfg tags i s)
    ++ since (iteration cfg tags i s) (run cfg tags rest (iteration cfg tags i s)).
Proof.
  destruct (iteration_reaches i s) as (d1 & R1).
  destruct (run_reaches rest (iteration cfg tags i s)) as (d2 & R2).
  rewrite (reaches_since _ _ _ R1), (reaches_since _ _ _ R2).
  apply reaches_since. exact (reaches_trans _ _ _ _ _ R1 R2).
Qed.

Lemma since_refl s : since s s = [].
Proof. apply reaches_since, reaches_refl. Qed.

(** What holds of the calls of every pass holds of the calls of a run. *)
Lemma run_Forall (P : Call -> Prop) (Inv : State -> Prop) :
  (forall i s, Inv s ->
     Inv (iteration cfg tags i s) /\
     Forall P (since s (iteration cfg tags i s))) ->
  forall inputs s, Inv s ->
    Inv (run cfg tags inputs s) /\ Forall P (since s (run cfg tags inputs s)).
Proof.
  intros Step. induction inputs as [|i rest IH]; intros s HI.
  - cbn [run fold_left]. rewrite since_refl. split; [exact HI | constructor].
  - rewrite run_since_cons. destruct (Step i s HI) as (HI1 & F1).
    destruct (IH _ HI1) as (HI2 & F2).
    split; [exact HI2|]. apply Forall_app. split; assumption.
Qed.

Lemma drainCalls_drain l : Forall (fun c => is_drain c = true) (drainCalls cfg l).
Proof.
  unfold drainCalls. induction (chunksOf (List.length l) l) as [|c r IH];
    cbn [flat_map]; [constructor|].
  apply Forall_app. split; [|exact IH].
  destruct (DEBUG_RAW_GPS cfg); repeat constructor.
Qed.

Lemma drainCalls_parsed l :
  parsed (drainCalls cfg l) = chunksOf (List.length l) l.
Proof.
  unfold drainCalls. induction (chunksOf (List.length l) l) as [|c r IH];
    cbn [flat_map]; [reflexivity|].
  rewrite parsed_app, IH. destruct (DEBUG_RAW_GPS cfg); reflexivity.
Qed.

Lemma filter_none {A} (f : A -> bool) l :
  Forall (fun c => f c = false) l -> filter f l = [].
Proof.
  induction 1 as [|c l H _ IH]; cbn [filter]; [reflexivity|]. now rewrite H.
Qed.

Lemma Forall_weaken {A} (P Q : A -> Prop) l :
  (forall c, P c -> Q c) -> Forall P l -> Forall Q l.
Proof. intros H F. eapply Forall_impl; [exact H | exact F]. Qed.

(** The calls of a pass that follow the settings. *)
Lemma pass_rest_no_store l hb w (due : bool) d3 :
  Forall (fun c => is_timecheck c = true) d3 ->
  Forall (fun c => is_store c = false)
    (drainCalls cfg l ++ ticks
     ++ (if due then telemetryCalls hb w else []) ++ d3).
Proof.
  intros F3. apply Forall_app. split.
  { eapply Forall_weaken; [|apply drainCalls_drain].
    intros c H. destruct c; simpl in *; congruence. }
  apply Forall_app. split; [repeat constructor|].
  apply Forall_app. split; [destruct due; repeat constructor|].
  eapply Forall_weaken; [|exact F3].
  intros c H. destruct c; simpl in *; congruence.
Qed.

(** X5.  [loop] loads the settings once, at the start of its first pass and
    before it calls anything else: a run from a state in which they are not
    loaded yet begins with the calls of [loadSettings] (on the store and the
    debug console only), and after them [loop] makes no call on the settings
    store or on the settings of the door or the light, in that pass or in any
    later one. *)
Theorem settings_loaded_once_at_first_pass i inputs s :
  settingsLoaded s = false ->
  exists dl rest,
    since s (run cfg tags (i :: inputs) s) = dl ++ rest /\
    quiet dl
    = (if getDataVersion (ext s) =? GARYCOOPER_DATA_VERSION then []
       else [save_updateHeader GARYCOOPER_DATA_VERSION; save_rewind;
             door_saveSettings true; light_saveSettings true])
      ++ [save_rewind; door_loadSettings; light_loadSettings] /\
    Forall (fun c => is_store c = true \/ is_console c = true) dl /\
    Forall (fun c => is_store c = false) rest.
Proof.
  intros U.
  destruct (iteration_shape i s) as (dl & d3 & R & _ & H2 & F3 & _ & L & _).
  destruct (H2 U) as (Q & Fl).
  set (s1 := iteration cfg tags i s) in *.
  assert (Later : forall j t, settingsLoaded t = true ->
            settingsLoaded (iteration cfg tags j t) = true /\
            Forall (fun c => is_store c = false)
              (since t (iteration cfg tags j t))).
  { intros j t Lt.
    destruct (iteration_shape j t) as (dl' & d3' & R' & H1' & _ & F3' & _ & L' & _).
    split; [exact L'|]. rewrite (reaches_since _ _ _ R'), (H1' Lt).
    cbn [app]. now apply pass_rest_no_store. }
  destruct (run_Forall (fun c => is_store c = false)
              (fun t => settingsLoaded t = true) Later inputs s1 L) as (_ & Fr).
  eexists dl, _. split; [|split; [exact Q|split; [exact Fl|]]].
  - rewrite run_since_cons. fold s1. rewrite (reaches_since _ _ _ R).
    rewrite <- app_assoc. reflexivity.
  - apply Forall_app. split; [|exact Fr]. now apply pass_rest_no_store.
Qed.

Lemma filter_ticks_pass dl l hb w (due : bool) d3 :
  Forall (fun c => is_store c = true \/ is_console c = true) dl ->
  Forall (fun c => is_timecheck c = true) d3 ->
  filter is_tick
    (dl ++ drainCalls cfg l ++ ticks
     ++ (if due then telemetryCalls hb w else []) ++ d3) = ticks.
Proof.
  intros Fl F3. rewrite !filter_app.
  rewrite (filter_none is_tick dl), (filter_none is_tick (drainCalls cfg l)),
          (filter_none is_tick d3).
  - destruct due; reflexivity.
  - eapply Forall_weaken; [|exact F3].
    intros c H. destruct c; simpl in *; congruence.
  - eapply Forall_weaken; [|apply drainCalls_drain].
    intros c H. destruct c; simpl in *; congruence.
  - eapply Forall_weaken; [|exact Fl].
    intros c [H|H]; destruct c; simpl in *; congruence.
Qed.

(** The calls of [loadSettings] in a pass, in either state of the latch. *)
Lemma iteration_load s dl :
  (settingsLoaded s = true -> dl = []) ->
  (settingsLoaded s = false ->
   quiet dl
   = (if getDataVersion (ext s) =? GARYCOOPER_DATA_VERSION then []
      else [save_updateHeader GARYCOOPER_DATA_VERSION; save_rewind;
            door_saveSettings true; light_saveSettings true])
     ++ [save_rewind; door_loadSettings; light_loadSettings] /\
   Forall (fun c => is_store c = true \/ is_console c = true) dl) ->
  Forall (fun c => is_store c = true \/ is_console c = true) dl.
Proof.
  intros H1 H2. destruct (settingsLoaded s).
  - rewrite (H1 eq_refl). constructor.
  - exact (proj2 (H2 eq_refl)).
Qed.

(** X6.  Every pass ticks the four controllers once each, in the order
    telemetry port, telemetry, beeper, door, whatever else the pass does:
    over a run the ticks are that group of four, once per pass. *)
Theorem four_ticks_every_pass inputs s :
  filter is_tick (since s (run cfg tags inputs s))
  = flat_map (fun _ => [comm_tick; telemetry_tick; beep_tick; door_tick]) inputs.
Proof.
  revert s. induction inputs as [|i rest IH]; intros s.
  - cbn [run fold_left flat_map]. now rewrite since_refl.
  - rewrite run_since_cons, filter_app, IH. cbn [flat_map]. f_equal.
    destruct (iteration_shape i s) as (dl & d3 & R & H1 & H2 & F3 & _).
    rewrite (reaches_since _ _ _ R).
    apply filter_ticks_pass; [|exact F3]. exact (iteration_load s dl H1 H2).
Qed.

Lemma framer_app t : forall u o,
  framer o (t ++ u)
  = match framer o t with Some o' => framer o' u | None => None end.
Proof.
  induction t as [|c t IH]; intros u o; [reflexivity|].
  destruct c; cbn [app framer]; try apply IH; destruct o; try reflexivity; apply IH.
Qed.

(** Calls that are none of the framer's leave it as it is. *)
Lemma framer_off t o :
  Forall (fun c => off_frame c = true) t -> framer o t = Some o.
Proof.
  induction 1 as [|c t H _ IH]; [reflexivity|].
  destruct c; cbn [framer]; try exact IH; discriminate H.
Qed.

Lemma framer_pass dl l hb w (due : bool) d3 :
  Forall (fun c => is_store c = true \/ is_console c = true) dl ->
  Forall (fun c => is_timecheck c = true) d3 ->
  framer false
    (dl ++ drainCalls cfg l ++ ticks
     ++ (if due then telemetryCalls hb w else []) ++ d3) = Some false.
Proof.
  intros Fl F3.
  assert (O1 : Forall (fun c => off_frame c = true) dl).
  { eapply Forall_weaken; [|exact Fl].
    intros c [H|H]; destruct c; simpl in *; congruence. }
  assert (O2 : Forall (fun c => off_frame c = true) (drainCalls cfg l)).
  { eapply Forall_weaken; [|apply drainCalls_drain].
    intros c H; destruct c; simpl in *; congruence. }
  assert (O3 : Forall (fun c => off_frame c = true) d3).
  { eapply Forall_weaken; [|exact F3].
    intros c H; destruct c; simpl in *; congruence. }
  rewrite framer_app, (framer_off _ _ O1). cbv beta iota.
  rewrite framer_app, (framer_off _ _ O2). cbv beta iota.
  rewrite framer_app. change (framer false ticks) with (Some false).
  cbv beta iota.
  rewrite framer_app. destruct due; cbn [telemetryCalls framer];
    apply framer_off; exact O3.
Qed.

(** X7.  Over any run the calls of [loop] on the telemetry are well
    bracketed: no transmission is started inside another, every term is sent
    inside a transmission, every transmission that is started is ended, the
    collaborators are asked for their telemetry only between transmissions,
    and none is left open at the end of a pass. *)
Theorem telemetry_is_well_bracketed inputs s :
  framer false (since s (run cfg tags inputs s)) = Some false.
Proof.
  revert s. induction inputs as [|i rest IH]; intros s.
  - cbn [run fold_left]. now rewrite since_refl.
  - rewrite run_since_cons, framer_app.
    destruct (iteration_shape i s) as (dl & d3 & R & H1 & H2 & F3 & _).
    rewrite (reaches_since _ _ _ R).
    rewrite (framer_pass dl _ _ _ _ d3 (iteration_load s dl H1 H2) F3).
    cbv beta iota. apply IH.
Qed.

Lemma filter_heartbeat_pass dl l hb w (due : bool) d3 :
  Forall (fun c => is_store c = true \/ is_console c = true) dl ->
  Forall (fun c => is_timecheck c = true) d3 ->
  filter is_heartbeat_write
    (dl ++ drainCalls cfg l ++ ticks
     ++ (if due then telemetryCalls hb w else []) ++ d3)
  = if due then [digitalWrite_heartbeat (negb hb)] else [].
Proof.
  intros Fl F3. rewrite !filter_app.
  rewrite (filter_none is_heartbeat_write dl),
          (filter_none is_heartbeat_write (drainCalls cfg l)),
          (filter_none is_heartbeat_write d3).
  - destruct due; reflexivity.
  - eapply Forall_weaken; [|exact F3].
    intros c H. destruct c; simpl in *; congruence.
  - eapply Forall_weaken; [|apply drainCalls_drain].
    intros c H. destruct c; simpl in *; congruence.
  - eapply Forall_weaken; [|exact Fl].
    intros c [H|H]; destruct c; simpl in *; congruence.
Qed.

(** X8.  The heartbeat changes once for every pass that sends telemetry and
    in no other pass, and each change is written to the pin: over a run the
    writes to the pin alternate, starting from the opposite of the state the
    run found, one per telemetry firing, and the variable ends as the last
    value written. *)
Theorem heartbeat_toggles_with_telemetry inputs s :
  let n := telemetryFirings cfg tags inputs s in
  filter is_heartbeat_write (since s (run cfg tags inputs s))
  = map (fun j => digitalWrite_heartbeat (xorb (g_heartbeat s) (Nat.even j)))
      (seq 0 n) /\
  g_heartbeat (run cfg tags inputs s) = xorb (g_heartbeat s) (Nat.odd n).
Proof.
  revert s. induction inputs as [|i rest IH]; intros s n.
  - subst n. cbn [run fold_left telemetryFirings seq map]. rewrite since_refl.
    split; [reflexivity | now destruct (g_heartbeat s)].
  - destruct (iteration_shape i s) as (dl & d3 & R & H1 & H2 & F3 & _ & _ & Hb).
    set (s1 := iteration cfg tags i s) in *.
    destruct (IH s1) as (I1 & I2).
    change (run cfg tags (i :: rest) s) with (run cfg tags rest s1) at 2.
    rewrite run_since_cons, filter_app. fold s1.
    rewrite (reaches_since _ _ _ R).
    rewrite (filter_heartbeat_pass dl _ _ _ _ d3 (iteration_load s dl H1 H2) F3).
    rewrite I1, I2, Hb. subst n. cbn [telemetryFirings]. fold s1.
    set (m := telemetryFirings cfg tags rest s1).
    destruct (telemetryDue (clock i) s).
    + change (1 + m)%nat with (S m). rewrite Nat.odd_succ.
      cbn [seq map app]. rewrite <- seq_shift, map_map.
      split.
      * apply (f_equal2 cons); [now destruct (g_heartbeat s)|].
        apply map_ext. intros j. rewrite Nat.even_succ, <- Nat.negb_even.
        now destruct (g_heartbeat s), (Nat.even j).
      * rewrite <- Nat.negb_odd. now destruct (g_heartbeat s), (Nat.odd m).
    + rewrite xorb_false_r. cbn [app Nat.add]. split; reflexivity.
Qed.

Lemma chunksOf_nth fuel : forall l j,
  (List.length l <= fuel)%nat ->
  (j < List.length (chunksOf fuel l))%nat ->
  nth j (chunksOf fuel l) [] = firstn 255 (skipn (255 * j) l).
Proof.
  induction fuel as [|fuel IH]; intros l j Hl Hj; [cbn in Hj; lia|].
  destruct l as [|b l]; [cbn in Hj; lia|].
  cbn [chunksOf] in *. destruct j as [|j].
  - rewrite Nat.mul_0_r. reflexivity.
  - cbn [nth List.length] in *. rewrite IH.
    + rewrite skipn_skipn. do 2 f_equal. lia.
    + rewrite length_skipn. cbn [List.length]. lia.
    + lia.
Qed.

Lemma chunksOf_length fuel : forall l,
  (List.length l <= fuel)%nat ->
  List.length (chunksOf fuel l) = ((List.length l + 254) / 255)%nat.
Proof.
  induction fuel as [|fuel IH]; intros l Hl.
  - destruct l; [reflexivity | cbn in Hl; lia].
  - destruct l as [|b l]; [reflexivity|].
    assert (Hl' : (List.length l <= fuel)%nat) by (cbn [List.length] in Hl; lia).
    cbn [chunksOf List.length]. rewrite IH
      by (rewrite length_skipn; cbn [List.length]; lia).
    rewrite length_skipn. set (n := List.length (b :: l)).
    assert (0 < n)%nat by (subst n; cbn; lia).
    change (S (List.length l)) with n.
    destruct (Nat.le_gt_cases n 255) as [Hs|Hb].
    + replace (n - 255)%nat with 0%nat by lia.
      rewrite (Nat.div_small (0 + 254)) by lia.
      apply (Nat.div_unique _ _ 1%nat (n - 1)); lia.
    + replace (n + 254)%nat with ((n - 255 + 254) + 1 * 255)%nat by lia.
      rewrite Nat.div_add by lia. lia.
Qed.

Lemma iteration_parsed i s :
  parsed (since s (iteration cfg tags i s))
  = chunksOf (List.length (gps_serial s ++ arrived i)) (gps_serial s ++ arrived i).
Proof.
  destruct (iteration_shape i s) as (dl & d3 & R & H1 & H2 & F3 & _).
  rewrite (reaches_since _ _ _ R). rewrite !parsed_app, drainCalls_parsed.
  rewrite (parsed_no_parse dl), (parsed_no_parse d3).
  - destruct (telemetryDue (clock i) s); cbn; now rewrite app_nil_r.
  - eapply Forall_weaken; [|exact F3].
    intros c H; destruct c; simpl in *; congruence.
  - eapply Forall_weaken; [|exact (iteration_load s dl H1 H2)].
    intros c [H|H]; destruct c; simpl in *; congruence.
Qed.

Lemma loop_parsed now s :
  parsed (since s (exec (loop cfg tags now) s))
  = chunksOf (List.length (gps_serial s)) (gps_serial s).
Proof.
  destruct (pass_shape now s) as (dl & d3 & R & H1 & H2 & F3 & _).
  rewrite (reaches_since _ _ _ R), !parsed_app, drainCalls_parsed.
  rewrite (parsed_no_parse dl), (parsed_no_parse d3).
  - destruct (telemetryDue now s); cbn; now rewrite app_nil_r.
  - eapply Forall_weaken; [|exact F3].
    intros c H; destruct c; simpl in *; congruence.
  - destruct (settingsLoaded s) eqn:L.
    + rewrite (H1 eq_refl). constructor.
    + destruct (loadSettings_reach s) as (d & Rd & _ & F).
      rewrite (reaches_inj _ _ _ _ (H2 eq_refl) Rd).
      eapply Forall_weaken; [|exact F].
      intros c [H|H]; destruct c; simpl in *; congruence.
Qed.

(** C5, as amended.  In one pass of [loop] the input drain takes every byte
    that is waiting on the GPS port and hands it to the parser, in successive
    chunks cut by the 256-byte scratch buffer less one: with [n] bytes
    waiting the parser is called ceil(n / 255) times, and its [j]-th call
    gets bytes [255 j] to [255 j + 254] of them, so the prefix that fits is
    taken first and what remains is taken by the further passes of the same
    [while]; every chunk has 1 to 255 bytes, the chunks put together are the
    bytes that were waiting, and the port is empty when the drain ends and
    when the pass ends.  Nothing is left for a later pass. *)
Theorem drain_takes_all_in_chunks now s :
  let s' := exec (loop cfg tags now) s in
  let chunks := parsed (since s s') in
  gps_serial (atTelemetry cfg s) = [] /\
  gps_serial s' = [] /\
  List.concat chunks = gps_serial s /\
  Forall (fun c => (1 <= List.length c <= 255)%nat) chunks /\
  List.length chunks = ((List.length (gps_serial s) + 254) / 255)%nat /\
  (forall j, (j < List.length chunks)%nat ->
     nth j chunks [] = firstn 255 (skipn (255 * j) (gps_serial s))) /\
  (forall j, (S j < List.length chunks)%nat ->
     List.length (nth j chunks []) = 255%nat).
Proof.
  intros s' chunks.
  assert (Old : gps_serial s' = [] /\
                List.concat chunks = gps_serial s /\
                Forall (fun c => (1 <= List.length c <= 255)%nat) chunks).
  { subst chunks.
    destruct (loop_calls cfg tags now s)
      as (d & d2 & d3 & E & _ & P1 & P2 & _ & P4 & R3 & F3 & _).
    fold s' in E, R3.
    assert (Z2 : parsed d2 = []).
    { apply parsed_no_parse. eapply Forall_impl; [|exact P4].
      intros c Hc. destruct c; simpl in *; congruence. }
    assert (Z3 : parsed d3 = []) by (now apply parsed_no_parse).
    assert (Ep : parsed (since s s') = parsed d).
    { rewrite E, !parsed_app, Z2, Z3. simpl. now rewrite app_nil_r. }
    rewrite Ep. split; [|split; assumption].
    apply loop_gps_serial. }
  destruct Old as (O1 & O2 & O3).
  destruct (loopIntake_spec cfg s) as (_ & _ & G & _).
  split; [exact G|]. split; [exact O1|]. split; [exact O2|]. split; [exact O3|].
  subst chunks s'. rewrite loop_parsed.
  set (buf := gps_serial s).
  pose proof (chunksOf_length (List.length buf) buf (le_n _)) as HL.
  split; [exact HL|]. split.
  - intros j Hj. now apply chunksOf_nth.
  - intros j Hj. rewrite chunksOf_nth by lia.
    rewrite length_firstn, length_skipn. rewrite HL in Hj.
    assert (255 * j + 255 < List.length buf)%nat.
    { pose proof (Nat.div_mod_eq (List.length buf + 254) 255) as E.
      set (q := ((List.length buf + 254) / 255)%nat) in *.
      assert (255 * (j + 2) <= 255 * q)%nat by (apply Nat.mul_le_mono_l; lia).
      lia. }
    lia.
Qed.

(** X9.  The drain is greedy: with [n] bytes waiting at the start of a
    pass (those left on the port and those that arrived), the parser is
    called ceil(n / 255) times in that pass, and its [j]-th call gets bytes
    [255 j] to [255 j + 254] of them, so every call but the last gets exactly
    255 bytes. *)
Theorem drain_is_greedy i s :
  let buf := gps_serial s ++ arrived i in
  let chunks := parsed (since s (iteration cfg tags i s)) in
  List.length chunks = ((List.length buf + 254) / 255)%nat /\
  (forall j, (j < List.length chunks)%nat ->
     nth j chunks [] = firstn 255 (skipn (255 * j) buf)) /\
  (forall j, (S j < List.length chunks)%nat ->
     List.length (nth j chunks []) = 255%nat).
Proof.
  intros buf chunks. subst chunks. rewrite iteration_parsed. fold buf.
  pose proof (chunksOf_length (List.length buf) buf (le_n _)) as HL.
  split; [exact HL|]. split.
  - intros j Hj. now apply chunksOf_nth.
  - intros j Hj. rewrite chunksOf_nth by lia.
    rewrite length_firstn, length_skipn. rewrite HL in Hj.
    assert (255 * j + 255 < List.length buf)%nat.
    { pose proof (Nat.div_mod_eq (List.length buf + 254) 255) as E.
      set (q := ((List.length buf + 254) / 255)%nat) in *.
      assert (255 * (j + 2) <= 255 * q)%nat by (apply Nat.mul_le_mono_l; lia).
      lia. }
    lia.
Qed.

Lemma filter_all {A} (f : A -> bool) l :
  Forall (fun c => f c = true) l -> filter f l = l.
Proof.
  induction 1 as [|c l H _ IH]; cbn [filter]; [reflexivity|].
  now rewrite H, IH.
Qed.

(** X10.  In a build with DEBUG_RAW_GPS every chunk is written to the debug
    console just before it is handed to the parser, as the text up to its
    first NUL; in a build without, nothing is written.  Shown for a pass that
    neither loads the settings nor fires the time check, where these are the
    only calls on the console and the parser. *)
Theorem raw_echo_precedes_parse i s :
  settingsLoaded s = true ->
  timeCheckDue (clock i) s = false ->
  let calls := since s (iteration cfg tags i s) in
  filter (fun c => is_console c || is_parse c) calls
  = flat_map
      (fun chunk =>
         (if DEBUG_RAW_GPS cfg then [debug_print (c_string chunk)] else [])
         ++ [gps_parse chunk])
      (parsed calls).
Proof.
  intros L D calls. subst calls. rewrite iteration_parsed.
  destruct (iteration_shape i s) as (dl & d3 & R & H1 & _ & _ & I3 & _).
  rewrite (reaches_since _ _ _ R), (H1 L), (I3 D). cbn [app].
  rewrite !filter_app. fold (drainCalls cfg (gps_serial s ++ arrived i)).
  rewrite filter_all.
  - destruct (telemetryDue (clock i) s); cbn; now rewrite app_nil_r.
  - eapply Forall_weaken; [|apply drainCalls_drain].
    intros c H; destruct c; simpl in *; congruence.
Qed.

Lemma c_string_nul a b : c_string (a ++ x00 :: b) = c_string a.
Proof.
  induction a as [|x a IH]; cbn [app c_string].
  - reflexivity.
  - destruct (Byte.eqb x x00); [reflexivity | now rewrite IH].
Qed.

Lemma chunksOf_short l :
  l <> [] -> (List.length l <= 255)%nat -> chunksOf (List.length l) l = [l].
Proof.
  intros Hn Hl. destruct l as [|b l]; [congruence|].
  cbn [List.length chunksOf]. rewrite firstn_all2 by exact Hl.
  rewrite skipn_all2 by exact Hl. now destruct (List.length l).
Qed.

(** X11.  A NUL byte in the data cuts the echo short and nothing else: of a
    chunk [a ++ 0 :: b] the console of a DEBUG_RAW_GPS build shows [a] as far
    as its own first NUL, while the parser gets the whole chunk. *)
Theorem raw_echo_stops_at_nul i s a b :
  DEBUG_RAW_GPS cfg = true ->
  settingsLoaded s = true ->
  timeCheckDue (clock i) s = false ->
  gps_serial s ++ arrived i = a ++ x00 :: b ->
  (List.length (a ++ x00 :: b) <= 255)%nat ->
  let calls := since s (iteration cfg tags i s) in
  console calls = [debug_print (c_string a)] /\
  parsed calls = [a ++ x00 :: b].
Proof.
  intros G L D E Hl calls. subst calls.
  assert (Hn : a ++ x00 :: b <> []) by (destruct a; discriminate).
  split.
  - destruct (iteration_shape i s) as (dl & d3 & R & H1 & _ & _ & I3 & _).
    rewrite (reaches_since _ _ _ R), (H1 L), (I3 D), E. cbn [app].
    unfold console, drainCalls. rewrite chunksOf_short by assumption.
    cbn [flat_map]. rewrite G, c_string_nul.
    destruct (telemetryDue (clock i) s); reflexivity.
  - rewrite iteration_parsed, E. now apply chunksOf_short.
Qed.

Lemma loadSettings_console s :
  DEBUG_SETTINGS cfg = false ->
  console (since s (exec (loadSettings cfg) s)) = [].
Proof.
  intros G. destruct s as [a l tc tu hb f rx e t].
  unfold loadSettings, saveSettings, since. rewrite G. step.
  destruct (getDataVersion e =? GARYCOOPER_DATA_VERSION); cbn [negb]; step;
    rewrite <- ?app_assoc; cbn [app]; rewrite skipn_length_app; reflexivity.
Qed.

Lemma drainCalls_console l :
  DEBUG_RAW_GPS cfg = false -> console (drainCalls cfg l) = [].
Proof.
  intros G. unfold drainCalls. rewrite G.
  induction (chunksOf (List.length l) l) as [|c r IH]; [reflexivity|].
  cbn [flat_map app]. exact IH.
Qed.

Lemma atReport_poll now s :
  atReport now (exec (timer_getState timeCheckTimer now) s) = atReport now s.
Proof. destruct s as [a l tc tu hb f rx e t]. reflexivity. Qed.

(** What a time check writes on the console. *)
Lemma timeCheckTask_console now s :
  let b := negb (s_gpsDataStreamActive s) in
  console (since s (exec (timeCheckTask cfg tags now) s))
  = if timeCheckDue now s
       && announces (telemetry_error_GPS_no_data tags) b (s_errorFlags s)
    then [debug_println "";
          debug_print (if b then "*** SET ERROR: " else "*** CLEAR ERROR: ");
          debug_println (fst (describeError tags (telemetry_error_GPS_no_data tags)));
          debug_println ""]
    else [].
Proof.
  intros b. destruct (timeCheckDue now s) eqn:D; cbn [andb].
  - destruct (timeCheckTask_fired cfg tags now s D)
      as (_ & _ & _ & _ & _ & _ & _ & d & R1 & _ & R2).
    set (r := atReport now s) in *.
    assert (R0 : reaches s (timer_start timeCheckTimer
                              (CMilliTimer.duration (g_timeCheckTimer r))
                            :: (if s_gpsDataStreamActive s then [] else [gps_clear])) r).
    { subst r. unfold atReport, reaches.
      cbn [trace ext g_timeCheckTimer CMilliTimer.duration].
      split; [reflexivity|]. destruct (s_gpsDataStreamActive s); reflexivity. }
    rewrite (reaches_since _ _ _
               (reaches_trans _ _ _ _ _ R0 (reaches_trans _ _ _ _ _ R1 R2))).
    unfold console. rewrite !filter_app.
    assert (Ed : d = since r (exec (reportError cfg tags
                                      (telemetry_error_GPS_no_data tags) b) r)).
    { rewrite <- (reaches_since _ _ _ R1). unfold atSchedule.
      rewrite timeCheckReport_eq, atReport_poll. fold r.
      replace (s_gpsDataStreamActive (exec (timer_getState timeCheckTimer now) s))
        with (s_gpsDataStreamActive s)
        by (destruct s as [a l tc tu hb f rx e t]; reflexivity).
      reflexivity. }
    rewrite Ed.
    change (filter is_console (since r ?x)) with (console (since r x)).
    rewrite (proj2 (reportError_word cfg tags _ b r)).
    replace (s_errorFlags r) with (s_errorFlags s) by reflexivity.
    replace (filter is_console
               (timer_start timeCheckTimer (CMilliTimer.duration (g_timeCheckTimer r))
                :: (if s_gpsDataStreamActive s then [] else [gps_clear])))
      with (@nil Call) by (destruct (s_gpsDataStreamActive s); reflexivity).
    replace (filter is_console
               (sunCalc_processGPSData
                :: (if processGPSData (ext (atSchedule cfg tags now s))
                    then [door_checkTime; light_checkTime] else [])))
      with (@nil Call)
      by (destruct (processGPSData (ext (atSchedule cfg tags now s))); reflexivity).
    cbn [app]. now rewrite app_nil_r.
  - destruct (timeCheckTask_idle cfg tags now s D) as (R & _).
    now rewrite (reaches_since _ _ _ R).
Qed.

(** X12.  In a build with neither DEBUG_SETTINGS nor DEBUG_RAW_GPS the
    statements of [loop] write nothing on the debug console but the changes
    of the no-data error: a pass writes the four lines of the announcement
    when its time check fires and finds the error changed, and nothing
    otherwise.  (What the collaborators print themselves is not the
    sketch's.) *)
Theorem console_shows_only_error_changes i s :
  DEBUG_SETTINGS cfg = false ->
  DEBUG_RAW_GPS cfg = false ->
  let nodata := negb (s_gpsDataStreamActive s
                      || negb (Nat.eqb (List.length (gps_serial s ++ arrived i)) 0)) in
  console (since s (iteration cfg tags i s))
  = if timeCheckDue (clock i) s
       && announces (telemetry_error_GPS_no_data tags) nodata (s_errorFlags s)
    then [debug_println "";
          debug_print (if nodata then "*** SET ERROR: " else "*** CLEAR ERROR: ");
          debug_println "telemetry_error_GPS_no_data";
          debug_println ""]
    else [].
Proof.
  intros G1 G2 nodata.
  replace "telemetry_error_GPS_no_data"
    with (fst (describeError tags (telemetry_error_GPS_no_data tags)))
    by (unfold describeError; now rewrite Z.eqb_refl).
  unfold iteration.
  set (s0 := receive (arrived i) s).
  assert (R0 : reaches s [] s0)
    by (unfold s0, receive, reaches; cbn; now rewrite app_nil_r).
  rewrite loop_eq.
  destruct (atTimeCheck_spec cfg (clock i) s0) as (A1 & A2 & A3 & _).
  pose proof (timeCheckTask_console (clock i) (atTimeCheck cfg (clock i) s0)) as C.
  cbv zeta in C.
  set (s2 := atTimeCheck cfg (clock i) s0) in *.
  assert (Ed : timeCheckDue (clock i) s2 = timeCheckDue (clock i) s)
    by (unfold timeCheckDue; rewrite A2; reflexivity).
  rewrite Ed, A1, A3 in C.
  replace (s_errorFlags s0) with (s_errorFlags s) in C by reflexivity.
  replace (s_gpsDataStreamActive s0) with (s_gpsDataStreamActive s) in C by reflexivity.
  replace (gps_serial s0) with (gps_serial s ++ arrived i) in C by reflexivity.
  fold nodata in C. rewrite <- C.
  destruct (loopIntake_shape s0) as (dl & R1 & H1 & H2).
  destruct (telemetryTask_spec (clock i) (atTelemetry cfg s0))
    as (_ & _ & _ & _ & _ & Hd & Hi).
  fold (atTimeCheck cfg (clock i) s0) in Hd, Hi. fold s2 in Hd, Hi.
  assert (R2 : exists d2, reaches (atTelemetry cfg s0) d2 s2 /\ console d2 = []).
  { destruct (telemetryDue (clock i) (atTelemetry cfg s0)).
    - destruct (Hd eq_refl) as (R & _). eexists; split; [exact R | reflexivity].
    - destruct (Hi eq_refl) as (R & _). eexists; split; [exact R | reflexivity]. }
  destruct R2 as (d2 & R2 & C2).
  destruct (timeCheckTask_shape (clock i) s2) as (d3 & R3 & _).
  rewrite (reaches_since _ _ _ R3).
  rewrite (reaches_since _ _ _
             (reaches_trans _ _ _ _ _ R0
                (reaches_trans _ _ _ _ _ R1 (reaches_trans _ _ _ _ _ R2 R3)))).
  cbn [app]. unfold console in *. rewrite !filter_app, C2.
  fold (console (drainCalls cfg (gps_serial s0))).
  rewrite drainCalls_console by exact G2.
  assert (Cl : filter is_console dl = []).
  { destruct (settingsLoaded s0) eqn:L.
    - now rewrite (H1 eq_refl).
    - rewrite <- (reaches_since _ _ _ (H2 eq_refl)).
      now apply loadSettings_console. }
  rewrite Cl. reflexivity.
Qed.

End Passes.

(** ** The further properties, on the simulated collaborators *)

Lemma report_twice_is_report_once_witness :
  (true = true -> 3 mod 65536 <> 0) /\
  exec (reportError as_given sim_tags 3 true)
    (exec (reportError as_given sim_tags 3 true) (sim_start 1 false))
  = exec (reportError as_given sim_tags 3 true) (sim_start 1 false).
Proof.
  assert (H : true = true -> 3 mod 65536 <> 0) by (intros _; vm_compute; discriminate).
  split; [exact H|].
  exact (report_twice_is_report_once (W := Sim) as_given sim_tags 3 true
           (sim_start 1 false) H).
Defined.

Lemma tag_outside_word_never_sticks_witness :
  0 mod 65536 = 0 /\
  is_uint16 (s_errorFlags (sim_start 1 false)) /\
  s_errorFlags (exec (reportError as_given sim_tags 0 true) (sim_start 1 false))
  = s_errorFlags (sim_start 1 false) /\
  console
    (since (sim_start 1 false)
       (exec (reportError as_given sim_tags 0 true) (sim_start 1 false)))
  = [debug_println ""; debug_print "*** SET ERROR: ";
     debug_println "0"; debug_println ""].
Proof.
  assert (H1 : 0 mod 65536 = 0) by reflexivity.
  assert (H2 : is_uint16 (s_errorFlags (sim_start 1 false)))
    by (vm_compute; split; [discriminate | reflexivity]).
  split; [exact H1|]. split; [exact H2|].
  destruct (tag_outside_word_never_sticks (W := Sim) as_given sim_tags 0
              (sim_start 1 false) H1 H2) as (Hw & Hc & _).
  split; [exact Hw | exact Hc].
Defined.

Lemma word_is_the_standing_errors_witness :
  OneBitPerKind sim_tags /\
  (s_errorFlags
     (exec (reportAll as_given sim_tags
              [(GPS_no_data, true); (no_door_motor, true); (GPS_no_data, false)])
           (power_on (W := Sim) {| sim_version := 1; sim_locked := false |})) = 0
   <-> forall k,
         lastReport k false
           [(GPS_no_data, true); (no_door_motor, true); (GPS_no_data, false)]
         = false).
Proof.
  split; [exact sim_tags_one_bit|].
  exact (proj2 (word_is_the_standing_errors (W := Sim) as_given sim_tags
                  [(GPS_no_data, true); (no_door_motor, true); (GPS_no_data, false)]
                  {| sim_version := 1; sim_locked := false |} sim_tags_one_bit)).
Defined.

Lemma reports_of_different_kinds_commute_witness :
  OneBitPerKind sim_tags /\
  is_uint16 (s_errorFlags (sim_start 1 false)) /\
  GPS_no_data <> no_door_motor /\
  s_errorFlags
    (exec (reportError as_given sim_tags (tagOf sim_tags GPS_no_data) true ;;
           reportError as_given sim_tags (tagOf sim_tags no_door_motor) true)
          (sim_start 1 false))
  = s_errorFlags
      (exec (reportError as_given sim_tags (tagOf sim_tags no_door_motor) true ;;
             reportError as_given sim_tags (tagOf sim_tags GPS_no_data) true)
            (sim_start 1 false)).
Proof.
  assert (H2 : is_uint16 (s_errorFlags (sim_start 1 false)))
    by (vm_compute; split; [discriminate | reflexivity]).
  assert (H3 : GPS_no_data <> no_door_motor) by discriminate.
  split; [exact sim_tags_one_bit|]. split; [exact H2|]. split; [exact H3|].
  exact (reports_of_different_kinds_commute (W := Sim) as_given sim_tags
           GPS_no_data true no_door_motor true (sim_start 1 false)
           sim_tags_one_bit H2 H3).
Defined.

Lemma settings_loaded_once_at_first_pass_witness :
  settingsLoaded (sim_start 7 false) = false /\
  exists dl rest,
    since (sim_start 7 false) (run as_given sim_tags silence (sim_start 7 false))
    = dl ++ rest /\
    quiet dl
    = (if getDataVersion (ext (sim_start 7 false)) =? GARYCOOPER_DATA_VERSION
       then []
       else [save_updateHeader GARYCOOPER_DATA_VERSION; save_rewind;
             door_saveSettings true; light_saveSettings true])
      ++ [save_rewind; door_loadSettings; light_loadSettings] /\
    Forall (fun c => is_store c = true \/ is_console c = true) dl /\
    Forall (fun c => is_store c = false) rest.
Proof.
  assert (H : settingsLoaded (sim_start 7 false) = false) by reflexivity.
  split; [exact H|].
  exact (settings_loaded_once_at_first_pass (W := Sim) as_given sim_tags
           {| clock := 5000; arrived := [] |}
           [ {| clock := 7000; arrived := [] |};
             {| clock := 10000; arrived := [] |};
             {| clock := 15000; arrived := [] |} ]
           (sim_start 7 false) H).
Defined.

Lemma raw_echo_precedes_parse_witness :
  settingsLoaded sim_raw_loaded = true /\
  timeCheckDue 200 sim_raw_loaded = false /\
  console
    (since sim_raw_loaded
       (iteration raw_echo sim_tags {| clock := 200; arrived := rmc_void |}
          sim_raw_loaded))
  = [debug_print "$GPRMC,,V,,,,,,,,,,N"].
Proof.
  assert (H1 : settingsLoaded sim_raw_loaded = true) by (vm_compute; reflexivity).
  assert (H2 : timeCheckDue 200 sim_raw_loaded = false) by (vm_compute; reflexivity).
  split; [exact H1|]. split; [exact H2|].
  pose proof (raw_echo_precedes_parse (W := Sim) raw_echo sim_tags
                {| clock := 200; arrived := rmc_void |} sim_raw_loaded H1 H2) as E.
  cbv zeta in E. apply (f_equal console) in E.
  vm_compute in E. vm_compute. exact E.
Defined.

Lemma raw_echo_stops_at_nul_witness :
  DEBUG_RAW_GPS raw_echo = true /\
  settingsLoaded sim_raw_loaded = true /\
  timeCheckDue (clock with_nul) sim_raw_loaded = false /\
  gps_serial sim_raw_loaded ++ arrived with_nul = [x24; x47] ++ x00 :: [x50] /\
  (List.length ([x24; x47] ++ x00 :: [x50]) <= 255)%nat /\
  console (since sim_raw_loaded (iteration raw_echo sim_tags with_nul sim_raw_loaded))
  = [debug_print "$G"] /\
  parsed (since sim_raw_loaded (iteration raw_echo sim_tags with_nul sim_raw_loaded))
  = [[x24; x47; x00; x50]].
Proof.
  assert (H1 : DEBUG_RAW_GPS raw_echo = true) by reflexivity.
  assert (H2 : settingsLoaded sim_raw_loaded = true) by (vm_compute; reflexivity).
  assert (H3 : timeCheckDue (clock with_nul) sim_raw_loaded = false)
    by (vm_compute; reflexivity).
  assert (H4 : gps_serial sim_raw_loaded ++ arrived with_nul
               = [x24; x47] ++ x00 :: [x50]) by (vm_compute; reflexivity).
  assert (H5 : (List.length ([x24; x47] ++ x00 :: [x50]) <= 255)%nat)
    by (simpl; lia).
  split; [exact H1|]. split; [exact H2|]. split; [exact H3|].
  split; [exact H4|]. split; [exact H5|].
  exact (raw_echo_stops_at_nul (W := Sim) raw_echo sim_tags with_nul sim_raw_loaded
           [x24; x47] [x50] H1 H2 H3 H4 H5).
Defined.

Lemma console_shows_only_error_changes_witness :
  DEBUG_SETTINGS as_given = false /\
  DEBUG_RAW_GPS as_given = false /\
  console
    (since (sim_start 1 false)
       (iteration as_given sim_tags {| clock := 5000; arrived := [] |}
          (sim_start 1 false)))
  = [debug_println "";
     debug_print "*** SET ERROR: ";
     debug_println "telemetry_error_GPS_no_data";
     debug_println ""].
Proof.
  split; [reflexivity|]. split; [reflexivity|].
  exact (console_shows_only_error_changes (W := Sim) as_given sim_tags
           {| clock := 5000; arrived := [] |} (sim_start 1 false)
           eq_refl eq_refl).
Defined.
